(** * compute.toys: editor state, compiler diagnostics and runtime controls

  A shallow embedding of the orchestration code of the shader playground:

  - [Atoms]: the jotai atoms of [lib/atoms/atoms] (the code text, the
    play/reset/reload flags, the stored parse error, the loaded
    textures, the entry points and the slider map) with their initial
    values, and the primitive-atom read and write operations;
  - [Editor]: the [parseError] effect of the Monaco component, which
    turns the stored parse error into the marker list handed to
    [monaco.editor.setModelMarkers];
  - [Controller]: the reload controller and the registry reconciliation,
    which are not part of the reviewed sources and are modelled from the
    design document.

  Numbers of the source ([row], [col], line numbers, columns) are JavaScript
  numbers holding integers; they are modelled as [Z]. *)

From stdpp Require Import base numbers option list strings pretty gmap.

Local Open Scope Z_scope.

(** ** The atoms *)

Module Atoms.

(** [DEFAULT_SHADER]: the template literal of the source, line for line. *)
Definition DEFAULT_SHADER : string := "
@stage(compute) @workgroup_size(16, 16)
fn main_image(@builtin(global_invocation_id) id: uint3) {
    // Viewport resolution (in pixels)
    let screen_size = uint2(textureDimensions(screen));

    // Prevent overdraw for workgroups on the edge of the viewport
    if (id.x >= screen_size.x || id.y >= screen_size.y) { return; }

    // Pixel coordinates (centre of pixel, origin at bottom left)
    let fragCoord = float2(float(id.x) + .5, float(screen_size.y - id.y) - .5);

    // Normalised pixel coordinates (from 0 to 1)
    let uv = fragCoord / float2(screen_size);

    // Time varying pixel colour
    var col = .5 + .5 * cos(time.elapsed + uv.xyx + float3(0.,2.,4.));

    // Convert from gamma-encoded to linear colour space
    col = pow(col, float3(2.2));

    // Output to screen (linear colour space)
    textureStore(screen, int2(id.xy), float4(col, 1.));
}
".

(** [ParseError], as the literal stored in [parseErrorAtom] shapes it. *)
Record Position := { row : Z; col : Z }.

Record ParseError := {
  summary : string;
  position : Position;
  success : bool
}.

(** The entries of [entryPointsAtom] are entry point names. *)
Abbreviation EntryPoint := string (only parsing).

(** [React.MutableRefObject<UniformSliderRef>]: a reference cell, named by
    its address. *)
Abbreviation SliderRef := nat (only parsing).

(** The store: one field per exported atom, holding the atom's value. *)
Record Store := {
  codeAtom : string;
  playAtom : bool;
  resetAtom : bool;
  hotReloadAtom : bool;
  manualReloadAtom : bool;
  parseErrorAtom : ParseError;
  loadedTexturesAtom : list string;
  entryPointsAtom : list EntryPoint;
  sliderRefMapAtom : gmap string SliderRef
}.

(** The initial value given to each [atom(...)] call. *)
Definition initialStore : Store := {|
  codeAtom := DEFAULT_SHADER;
  playAtom := true;
  resetAtom := false;
  hotReloadAtom := false;
  manualReloadAtom := false;
  parseErrorAtom :=
    {| summary := EmptyString;
       position := {| row := 0; col := 0 |};
       success := true |};
  loadedTexturesAtom := ["/textures/blank.png"; "/textures/blank.png"];
  entryPointsAtom := [];
  sliderRefMapAtom := ∅
|}.

(** [const [code, setCode] = useAtom(codeAtom)]: a primitive atom of type
    [string]. Reading gives the stored string; writing replaces it. The
    editor's [onChange] handler calls [setCode(value)]. *)
Definition code (st : Store) : string := codeAtom st.

Definition setCode (value : string) (st : Store) : Store := {|
  codeAtom := value;
  playAtom := playAtom st;
  resetAtom := resetAtom st;
  hotReloadAtom := hotReloadAtom st;
  manualReloadAtom := manualReloadAtom st;
  parseErrorAtom := parseErrorAtom st;
  loadedTexturesAtom := loadedTexturesAtom st;
  entryPointsAtom := entryPointsAtom st;
  sliderRefMapAtom := sliderRefMapAtom st
|}.

(** [const [parseError, setParseError] = useAtom(parseErrorAtom)]: the
    same for the stored parse error. *)
Definition parseError (st : Store) : ParseError := parseErrorAtom st.

Definition setParseError (value : ParseError) (st : Store) : Store := {|
  codeAtom := codeAtom st;
  playAtom := playAtom st;
  resetAtom := resetAtom st;
  hotReloadAtom := hotReloadAtom st;
  manualReloadAtom := manualReloadAtom st;
  parseErrorAtom := value;
  loadedTexturesAtom := loadedTexturesAtom st;
  entryPointsAtom := entryPointsAtom st;
  sliderRefMapAtom := sliderRefMapAtom st
|}.

(** A run of editor change events, oldest first. *)
Definition edits (values : list string) (st : Store) : Store :=
  foldl (λ acc value, setCode value acc) st values.

End Atoms.

(** ** The Monaco component *)

Module Editor.
Import Atoms.

(** *** The text model

    The part of Monaco's [ITextModel] that the effect calls. A model
    always has at least one line (the empty document is one empty line);
    line numbers and columns start at 1. *)
Record TextModel := {
  firstLine : string;
  moreLines : list string
}.

Definition modelLines (model : TextModel) : list string :=
  firstLine model :: moreLines model.

Definition getLineCount (model : TextModel) : Z :=
  Z.of_nat (length (modelLines model)).

(** [getLineContent] throws "Illegal value for lineNumber" outside
    [1 .. getLineCount()]; [None] stands for the exception. *)
Definition getLineContent (model : TextModel) (lineNumber : Z) : option string :=
  if bool_decide (lineNumber < 1 ∨ lineNumber > getLineCount model) then None
  else modelLines model !! Z.to_nat (lineNumber - 1).

(** [getLineMaxColumn]: the column after the last character. *)
Definition getLineMaxColumn (model : TextModel) (lineNumber : Z) : option Z :=
  content ← getLineContent model lineNumber;
  Some (Z.of_nat (String.length content) + 1).

(** Monaco's [firstNonWhitespaceIndex]: only space and tab count as
    whitespace; [-1] when there is no other character. *)
Definition charCode (c : Ascii.ascii) : nat := Ascii.nat_of_ascii c.

Definition isSpaceOrTab (c : Ascii.ascii) : bool :=
  bool_decide (charCode c = 32%nat) || bool_decide (charCode c = 9%nat).

Fixpoint firstNonWhitespaceIndex (str : string) : Z :=
  match str with
  | EmptyString => -1
  | String c rest =>
      if isSpaceOrTab c then
        let i := firstNonWhitespaceIndex rest in
        if i =? -1 then -1 else i + 1
      else 0
  end.

(** [getLineFirstNonWhitespaceColumn]: 0 for an empty or blank line. *)
Definition getLineFirstNonWhitespaceColumn (model : TextModel) (lineNumber : Z)
  : option Z :=
  content ← getLineContent model lineNumber;
  let result := firstNonWhitespaceIndex content in
  Some (if result =? -1 then 0 else result + 1).

(** *** Markers *)

(** [monaco.MarkerSeverity] *)
Inductive MarkerSeverity := Hint | Info | Warning | Error.

(** [IMarkerData], the fields the effect fills in. *)
Record Marker := {
  startLineNumber : Z;
  startColumn : Z;
  endLineNumber : Z;
  endColumn : Z;
  message : string;
  severity : MarkerSeverity
}.

(** *** The effect body

    [mapToMarkers model parseError] is the marker list that the effect
    passes to [monaco.editor.setModelMarkers(model, "owner", ...)], in the
    order of the source: the [success] test, then the range test on the
    reported [line], then the end-of-line adjustment inside the in-range
    branch. [None] stands for an exception of a model accessor. *)
Definition mapToMarkers (model : TextModel) (parseError : ParseError)
  : option (list Marker) :=
  let line := row (position parseError) in
  if success parseError then
    Some []
  else if bool_decide (0 < line) && bool_decide (line < getLineCount model) then
    maxColumn ← getLineMaxColumn model line;
    let line :=
      if bool_decide (col (position parseError) = maxColumn)
      then line + 1   (* naga emits some weird positions *)
      else line in
    firstColumn ← getLineFirstNonWhitespaceColumn model line;
    lastColumn ← getLineMaxColumn model line;
    Some [ {| startLineNumber := line;
              startColumn := firstColumn;
              endLineNumber := line;
              endColumn := lastColumn;
              message := summary parseError;
              severity := Error |} ]
  else
    lastColumn ← getLineMaxColumn model (getLineCount model);
    Some [ {| startLineNumber := 1;
              startColumn := 1;
              endLineNumber := getLineCount model;
              endColumn := lastColumn;
              message := summary parseError;
              severity := Error |} ].

(** The whole [useEffect]: nothing happens until the editor is mounted
    ([monacoRef.current] is [null]); afterwards the markers of the owner
    are replaced by the new list. The state is the owner's marker list. *)
Definition parseErrorEffect (monacoRef : option TextModel)
    (parseError : ParseError) (markers : list Marker) : option (list Marker) :=
  match monacoRef with
  | None => Some markers
  | Some model => mapToMarkers model parseError
  end.

(** *** The design document's wording, for comparison

    The document corrects the row first and tests the range afterwards.
    A row outside the document has no maximum column, so no column equals
    it and such a row is not advanced. *)
Definition correctedRow (model : TextModel) (parseError : ParseError) : Z :=
  let line := row (position parseError) in
  if bool_decide (getLineMaxColumn model line = Some (col (position parseError)))
  then line + 1
  else line.

(** The range [[1, documentLineCount)]. *)
Definition inDocumentRange (model : TextModel) (line : Z) : Prop :=
  1 ≤ line < getLineCount model.

Definition lineMarker (model : TextModel) (parseError : ParseError) (line : Z)
  : option Marker :=
  firstColumn ← getLineFirstNonWhitespaceColumn model line;
  lastColumn ← getLineMaxColumn model line;
  Some {| startLineNumber := line;
          startColumn := firstColumn;
          endLineNumber := line;
          endColumn := lastColumn;
          message := summary parseError;
          severity := Error |}.

Definition wholeDocumentMarker (model : TextModel) (parseError : ParseError)
  : option Marker :=
  lastColumn ← getLineMaxColumn model (getLineCount model);
  Some {| startLineNumber := 1;
          startColumn := 1;
          endLineNumber := getLineCount model;
          endColumn := lastColumn;
          message := summary parseError;
          severity := Error |}.

Definition mapToMarkers_spec (model : TextModel) (parseError : ParseError)
  : option (list Marker) :=
  if success parseError then Some []
  else
    let line := correctedRow model parseError in
    if bool_decide (inDocumentRange model line)
    then marker ← lineMarker model parseError line; Some [marker]
    else marker ← wholeDocumentMarker model parseError; Some [marker].

(** *** Sample documents and diagnostics *)

(** Ten lines; line 5 starts at column 2, the last line is empty. *)
Definition tenLines : TextModel := {|
  firstLine := "fn main_image() {";
  moreLines := [ "  var a = 1;";
                 "  var b = 2;";
                 "  if (a < b) {";
                 " a = b";
                 "  }";
                 "  var c = a +;";
                 "  return;";
                 "}";
                 EmptyString ]
|}.

Definition twoLines : TextModel := {|
  firstLine := "fn f() {";
  moreLines := [ "}" ]
|}.

Definition failure (message : string) (line column : Z) : ParseError :=
  {| summary := message;
     position := {| row := line; col := column |};
     success := false |}.

End Editor.

(** ** The reload controller and the registries

  The component that receives compile results and the slider component
  that owns the controls are outside the reviewed sources; what follows
  is written from the design document (sections 3, 4.3, 4.4, 4.5 and 6).
  The code store is the one of the sources: the text that [codeAtom]
  holds, replaced by every edit, with no revision counter. The revision
  that tells compile requests apart is therefore the controller's: it
  numbers the requests it submits. *)

Module Controller.
Import Atoms.

(** Modelled from the spec: the entry point kinds of section 3. *)
Inductive EntryPointKind := Image | Compute | Buffer.

(** Modelled from the spec: [EntryPointDescriptor] of section 3. *)
Record EntryPointDescriptor := { name : string; kind : EntryPointKind }.

(** Modelled from the spec: [UniformDeclaration] of section 3; the default
    value and the range bounds are opaque payloads, held as integers. *)
Record UniformDeclaration := {
  uniformName : string;
  defaultValue : Z;
  range : Z * Z
}.

(** Modelled from the spec: [CompileResult] of section 3. The diagnostic
    has the shape of the stored [ParseError]. *)
Inductive CompileResult :=
| Success (entryPoints : list EntryPointDescriptor)
          (uniforms : list UniformDeclaration)
| Failure (diagnostic : ParseError).

(** Modelled from the spec: [RuntimeFlags] of section 3. *)
Record RuntimeFlags := {
  playing : bool;
  resetRequested : bool;
  hotReload : bool;
  manualReloadRequested : bool
}.

(** Modelled from the spec: the logical modes of section 4.4. *)
Inductive Mode := Idle | Playing | Paused | CompilePending | Errored.

(** Modelled from the spec: the UI control boundary of section 6. The UI
    layer owns the controls; a handle is an index into its table. A
    control keeps the value the user set and its declared range. *)
Abbreviation ControlHandle := nat (only parsing).

(** Modelled from the spec: a control of the UI layer, the value the user
    set and the declared range. *)
Record Control := { value : Z; controlRange : Z * Z }.

(** Modelled from the spec: the table of live controls of the UI layer
    and the next handle it will issue. *)
Record UiLayer := {
  controls : gmap nat Control;
  nextHandle : ControlHandle
}.

(** Modelled from the spec: [createControl] of section 6 makes a control
    seeded with the declared default and range and returns its handle. *)
Definition createControl (default : Z) (declared : Z * Z) (ui : UiLayer)
  : ControlHandle * UiLayer :=
  (nextHandle ui,
   {| controls :=
        <[nextHandle ui := {| value := default; controlRange := declared |}]>
          (controls ui);
      nextHandle := S (nextHandle ui) |}).

(** Modelled from the spec: [updateControlRange] of section 6 changes the
    range of a control and keeps its value. *)
Definition setRange (declared : Z * Z) (c : Control) : Control :=
  {| value := value c; controlRange := declared |}.

Definition updateControlRange (handle : ControlHandle) (declared : Z * Z)
    (ui : UiLayer) : UiLayer :=
  {| controls := alter (setRange declared) handle (controls ui);
     nextHandle := nextHandle ui |}.

(** Modelled from the spec: [disposeControl] of section 6 removes the
    control from the UI layer. *)
Definition disposeControl (handle : ControlHandle) (ui : UiLayer) : UiLayer :=
  {| controls := delete handle (controls ui);
     nextHandle := nextHandle ui |}.

(** Modelled from the spec: the names of the declared uniforms; uniform
    identity is by name (section 4.3). *)
Definition declaredNames (uniforms : list UniformDeclaration) : list string :=
  uniformName <$> uniforms.

(** Modelled from the spec: the disposal of the controls whose
    association is removed. *)
Definition disposeAll (handles : list ControlHandle) (ui : UiLayer) : UiLayer :=
  foldr disposeControl ui handles.

(** Modelled from the spec: one declared uniform (section 4.3, step 2).
    A name that has an association keeps its handle and gets its range
    updated; a name without one gets a new control. *)
Definition bindUniform (acc : gmap string nat * UiLayer) (u : UniformDeclaration)
  : gmap string nat * UiLayer :=
  match acc.1 !! uniformName u with
  | Some handle => (acc.1, updateControlRange handle (range u) acc.2)
  | None =>
      let created := createControl (defaultValue u) (range u) acc.2 in
      (<[uniformName u := created.1]> acc.1, created.2)
  end.

(** Modelled from the spec: the reconciliation of section 4.3, step 2.
    Associations whose name is no longer declared are removed and their
    handles handed to [disposeControl]; then every declared uniform is
    bound. *)
Definition reconcile (uniforms : list UniformDeclaration)
    (registry : gmap string nat) (ui : UiLayer) : gmap string nat * UiLayer :=
  let removed :=
    filter (λ binding, binding.1 ∉ declaredNames uniforms) registry in
  let kept :=
    filter (λ binding, binding.1 ∈ declaredNames uniforms) registry in
  foldl bindUniform (kept, disposeAll (map_to_list removed).*2 ui) uniforms.

(** The registry is consistent with the UI layer when its handles were
    issued by the layer, name live controls, and no two names share one. *)
Definition handlesBelow (registry : gmap string nat) (bound : nat) : Prop :=
  ∀ name handle, registry !! name = Some handle → (handle < bound)%nat.

Definition injective (registry : gmap string nat) : Prop :=
  ∀ n1 n2 handle,
    registry !! n1 = Some handle → registry !! n2 = Some handle → n1 = n2.

Definition handlesLive (registry : gmap string nat) (ui : UiLayer) : Prop :=
  ∀ name handle,
    registry !! name = Some handle → is_Some (controls ui !! handle).

Definition wellBound (registry : gmap string nat) (ui : UiLayer) : Prop :=
  handlesBelow registry (nextHandle ui) ∧ injective registry ∧
  handlesLive registry ui.

(** Modelled from the spec: the compile request of section 6, the text
    and the revision that identifies the request. In the state below,
    [issued] counts the requests submitted so far, [pending] is the
    revision of the latest submitted request and [submissions] lists the
    requests sent to the gateway, newest first. *)
Record CompileRequest := { sourceText : string; requestRevision : N }.

(** Modelled from the spec: the controller's flags, mode, request counter
    and latest request, and the registries (sections 2 and 3).
    [codeStore] is the text of the code store as the sources have it. *)
Record State := {
  codeStore : string;
  flags : RuntimeFlags;
  mode : Mode;
  issued : N;
  pending : option N;
  submissions : list CompileRequest;
  entryPointRegistry : list EntryPointDescriptor;
  uniformBindingRegistry : gmap string nat;
  uiLayer : UiLayer;
  textureSlotRegistry : list string;
  storedDiagnostic : ParseError
}.

(** Modelled from the spec: the diagnostic that denotes no error. *)
Definition noError : ParseError :=
  {| summary := EmptyString;
     position := {| row := 0; col := 0 |};
     success := true |}.

(** Modelled from the spec: the state before any compile has completed
    (mode [Idle]); flags, textures and diagnostic as the atoms start. *)
Definition initial : State := {|
  codeStore := DEFAULT_SHADER;
  flags := {| playing := true; resetRequested := false;
              hotReload := false; manualReloadRequested := false |};
  mode := Idle;
  issued := 0;
  pending := None;
  submissions := [];
  entryPointRegistry := [];
  uniformBindingRegistry := ∅;
  uiLayer := {| controls := ∅; nextHandle := 0%nat |};
  textureSlotRegistry := ["/textures/blank.png"; "/textures/blank.png"];
  storedDiagnostic := noError
|}.

(** Modelled from the spec: the events of section 4.4 and the boundary
    calls of sections 4.5 and 6. A response carries the revision of the
    request it answers. *)
Inductive Event :=
| Edit (newText : string)
| SetHotReload (on : bool)
| ManualReload
| SetPlaying (on : bool)
| RequestReset
| RenderTick
| SetSlot (index : nat) (resourceId : string)
| Response (R : N) (result : CompileResult).

(** Modelled from the spec: a change of the runtime flags alone. *)
Definition withFlags (f : RuntimeFlags → RuntimeFlags) (s : State) : State :=
  {| codeStore := codeStore s; flags := f (flags s); mode := mode s;
     issued := issued s;
     pending := pending s; submissions := submissions s;
     entryPointRegistry := entryPointRegistry s;
     uniformBindingRegistry := uniformBindingRegistry s;
     uiLayer := uiLayer s; textureSlotRegistry := textureSlotRegistry s;
     storedDiagnostic := storedDiagnostic s |}.

(** Modelled from the spec: submitting a compile request; the text of the
    store is sent under the next revision, it becomes the latest request,
    and the manual-reload flag is cleared. *)
Definition submit (s : State) : State :=
  let R := (issued s + 1)%N in
  {| codeStore := codeStore s;
     flags := {| playing := playing (flags s);
                 resetRequested := resetRequested (flags s);
                 hotReload := hotReload (flags s);
                 manualReloadRequested := false |};
     mode := CompilePending;
     issued := R;
     pending := Some R;
     submissions :=
       {| sourceText := codeStore s; requestRevision := R |} :: submissions s;
     entryPointRegistry := entryPointRegistry s;
     uniformBindingRegistry := uniformBindingRegistry s;
     uiLayer := uiLayer s; textureSlotRegistry := textureSlotRegistry s;
     storedDiagnostic := storedDiagnostic s |}.

(** Modelled from the spec: an edit. The store takes the new text, as
    [setCode] writes [codeAtom]; under hot reload the controller also
    submits it, otherwise the text accumulates. *)
Definition edit (newText : string) (s : State) : State :=
  let s' :=
    {| codeStore := newText; flags := flags s;
       mode := mode s; issued := issued s;
       pending := pending s; submissions := submissions s;
       entryPointRegistry := entryPointRegistry s;
       uniformBindingRegistry := uniformBindingRegistry s;
       uiLayer := uiLayer s; textureSlotRegistry := textureSlotRegistry s;
       storedDiagnostic := storedDiagnostic s |} in
  if hotReload (flags s) then submit s' else s'.

(** Modelled from the spec: [setSlot] of section 4.5. *)
Definition setSlot (index : nat) (resourceId : string) (s : State) : State :=
  {| codeStore := codeStore s; flags := flags s; mode := mode s;
     issued := issued s;
     pending := pending s; submissions := submissions s;
     entryPointRegistry := entryPointRegistry s;
     uniformBindingRegistry := uniformBindingRegistry s;
     uiLayer := uiLayer s;
     textureSlotRegistry := <[index := resourceId]> (textureSlotRegistry s);
     storedDiagnostic := storedDiagnostic s |}.

(** Modelled from the spec: a success for the latest revision; the entry
    points are replaced, the uniform bindings reconciled, the diagnostic
    cleared. *)
Definition applySuccess (entryPoints : list EntryPointDescriptor)
    (uniforms : list UniformDeclaration) (s : State) : State :=
  let bound := reconcile uniforms (uniformBindingRegistry s) (uiLayer s) in
  {| codeStore := codeStore s; flags := flags s;
     mode := if playing (flags s) then Playing else Paused;
     issued := issued s;
     pending := pending s; submissions := submissions s;
     entryPointRegistry := entryPoints;
     uniformBindingRegistry := bound.1;
     uiLayer := bound.2; textureSlotRegistry := textureSlotRegistry s;
     storedDiagnostic := noError |}.

(** Modelled from the spec: a failure for the latest revision; the
    diagnostic is stored for the marker mapping and the mode becomes
    [Errored]. *)
Definition applyFailure (diagnostic : ParseError) (s : State) : State :=
  {| codeStore := codeStore s; flags := flags s; mode := Errored;
     issued := issued s;
     pending := pending s; submissions := submissions s;
     entryPointRegistry := entryPointRegistry s;
     uniformBindingRegistry := uniformBindingRegistry s;
     uiLayer := uiLayer s; textureSlotRegistry := textureSlotRegistry s;
     storedDiagnostic := diagnostic |}.

(** Modelled from the spec: a response is applied when its revision is
    that of the latest submitted request and discarded otherwise. *)
Definition respond (R : N) (result : CompileResult) (s : State) : State :=
  if bool_decide (pending s = Some R) then
    match result with
    | Success entryPoints uniforms => applySuccess entryPoints uniforms s
    | Failure diagnostic => applyFailure diagnostic s
    end
  else s.

(** Modelled from the spec: the transitions of section 4.4. *)
Definition step (s : State) (e : Event) : State :=
  match e with
  | Edit newText => edit newText s
  | SetHotReload on =>
      withFlags (λ f, {| playing := playing f;
                         resetRequested := resetRequested f;
                         hotReload := on;
                         manualReloadRequested := manualReloadRequested f |}) s
  | ManualReload => submit s
  | SetPlaying on =>
      withFlags (λ f, {| playing := on;
                         resetRequested := resetRequested f;
                         hotReload := hotReload f;
                         manualReloadRequested := manualReloadRequested f |}) s
  | RequestReset =>
      withFlags (λ f, {| playing := playing f;
                         resetRequested := true;
                         hotReload := hotReload f;
                         manualReloadRequested := manualReloadRequested f |}) s
  | RenderTick =>
      withFlags (λ f, {| playing := playing f;
                         resetRequested := false;
                         hotReload := hotReload f;
                         manualReloadRequested := manualReloadRequested f |}) s
  | SetSlot index resourceId => setSlot index resourceId s
  | Response R result => respond R result s
  end.

(** Modelled from the spec: the state after a sequence of events, oldest
    first, from the initial state. *)
Definition run (events : list Event) : State := foldl step initial events.





(** The responses that report a failure. *)
Definition isFailureResponse (e : Event) : bool :=
  match e with
  | Response _ (Failure _) => true
  | _ => false
  end.

(** Everything in the state but the mode and the stored diagnostic. *)
Definition core (s : State) :=
  (codeStore s, flags s, issued s, pending s, submissions s,
   entryPointRegistry s, uniformBindingRegistry s, uiLayer s,
   textureSlotRegistry s).



(** Sample data for the reconciliation: uniforms a and b are bound to
    two live controls, then b and c are declared. *)
Definition uniformsBC : list UniformDeclaration :=
  [ {| uniformName := "b"; defaultValue := 0; range := (0, 10) |};
    {| uniformName := "c"; defaultValue := 5; range := (0, 100) |} ].

Definition registryAB : gmap string nat := <["a" := 0%nat]> (<["b" := 1%nat]> ∅).

Definition uiAB : UiLayer := {|
  controls := <[0%nat := {| value := 3; controlRange := (0, 10) |}]>
              (<[1%nat := {| value := 7; controlRange := (0, 1) |}]> ∅);
  nextHandle := 2%nat
|}.

End Controller.

(** ** Blank lines *)

Module Text.

(** A line with no character other than space and tab, the lines for which
    Monaco's [firstNonWhitespaceIndex] answers [-1]. *)
Fixpoint blank (str : string) : Prop :=
  match str with
  | EmptyString => True
  | String c rest => Editor.isSpaceOrTab c = true ∧ blank rest
  end.

(** Sample data: a document whose second line is blank. *)
Definition blankSecondLine : Editor.TextModel := {|
  Editor.firstLine := "fn f() {";
  Editor.moreLines := [ "   "; "}" ]
|}.

Definition oneLine : Editor.TextModel := {|
  Editor.firstLine := "fn f() {}";
  Editor.moreLines := []
|}.

End Text.

(** ** The hover provider of the Monaco component

    [provideHover] of [editorWillMount]: on a line whose first field is
    [#include] it fetches the included file and shows its text. Strings of
    the source are JavaScript strings; here they are strings of 8-bit
    characters, which agrees with the source on ASCII text. *)

Module Hover.

(** [String.prototype.split(' ')]: the fields between single spaces; the
    result always has at least one field. *)
Fixpoint split (str : string) : list string :=
  match str with
  | EmptyString => [EmptyString]
  | String c rest =>
      if bool_decide (Editor.charCode c = 32%nat) then EmptyString :: split rest
      else match split rest with
           | field :: fields => String c field :: fields
           | [] => [String c EmptyString]
           end
  end.

(** [String.prototype.slice(start, end)]: negative positions count from
    the end, positions are clamped to the string, and an empty string
    results when the end does not come after the start. *)
Definition slice (start finish : Z) (str : string) : string :=
  let len := Z.of_nat (String.length str) in
  let from := if start <? 0 then Z.max (len + start) 0 else Z.min start len in
  let to := if finish <? 0 then Z.max (len + finish) 0 else Z.min finish len in
  String.substring (Z.to_nat from) (Z.to_nat (Z.max (to - from) 0)) str.

(** [String.prototype.charAt(pos)]: the character at [pos] as a string,
    the empty string when there is none. *)
Definition charAt (pos : nat) (str : string) : string :=
  String.substring pos 1 str.

(** The answer of [fetch]: the status and the body read by [text()]. *)
Record Response := { status : Z; text : string }.

(** [monaco.Range] and the hover the provider returns. *)
Record Range := {
  startLineNumber : Z;
  startColumn : Z;
  endLineNumber : Z;
  endColumn : Z
}.

Record HoverResult := { range : Range; contents : list string }.

(** How a call ends: with a value or with an exception. *)
Inductive Completion (A : Type) :=
| Returned (result : A)
| Thrown.

Arguments Returned {A} result.
Arguments Thrown {A}.

(** The URL the included file is fetched from. *)
Definition includeUrl (name : string) : string :=
  "https://compute-toys.github.io/include/" +:+ name +:+ ".wgsl".

(** The second content block: the text in a wgsl code fence. *)
Definition fenced (body : string) : string :=
  "```wgsl
" +:+ body +:+ "
```".

(** [provideHover(model, position)] with [n = position.lineNumber]. The
    result pairs the URLs requested with the way the call ends; a returned
    [None] is [undefined] (no hover). [fetch] answers a URL or fails
    ([None], the promise rejects); [mounted] tells whether
    [monacoRef.current] is set. Exceptions: [getLineContent] outside the
    document, [line[1]] missing ([undefined.slice]), a failed [fetch], and
    [monacoRef.current.Range] before the editor is mounted. *)
Definition provideHover (fetch : string → option Response) (mounted : bool)
    (model : Editor.TextModel) (n : Z)
  : list string * Completion (option HoverResult) :=
  match Editor.getLineContent model n with
  | None => ([], Thrown)
  | Some content =>
      let line := split content in
      if bool_decide (line !! 0%nat = Some "#include") then
        match line !! 1%nat with
        | None => ([], Thrown)
        | Some field =>
            let name := slice 1 (-1) field in
            let name :=
              if bool_decide (charAt 0 field = "<") then "std/" +:+ name
              else name in
            match fetch (includeUrl name) with
            | None => ([includeUrl name], Thrown)
            | Some resp =>
                if bool_decide (status resp ≠ 200) then
                  ([includeUrl name], Returned None)
                else if mounted then
                  match Editor.getLineMaxColumn model n with
                  | None => ([includeUrl name], Thrown)
                  | Some maxColumn =>
                      ([includeUrl name],
                       Returned (Some
                         {| range := {| startLineNumber := n;
                                        startColumn := 1;
                                        endLineNumber := n;
                                        endColumn := maxColumn |};
                            contents := ["**SOURCE**"; fenced (text resp)] |}))
                  end
                else ([includeUrl name], Thrown)
            end
        end
      else ([], Returned None)
  end.

(** No space in a string. *)
Fixpoint spaceless (str : string) : Prop :=
  match str with
  | EmptyString => True
  | String c rest => Editor.charCode c ≠ 32%nat ∧ spaceless rest
  end.

(** Sample data: a gateway that serves one library file, and a document
    with include directives. *)
Definition serveNoise (url : string) : option Response :=
  if bool_decide (url = "https://compute-toys.github.io/include/std/noise.wgsl")
  then Some {| status := 200; text := "fn noise() {}" |}
  else Some {| status := 404; text := "Not Found" |}.

Definition includeLines : Editor.TextModel := {|
  Editor.firstLine := "#include <noise>";
  Editor.moreLines := [ "#include";
                        "  #include <noise>";
                        "fn main_image() {}" ]
|}.

End Hover.

(** ** Mounting the Monaco component

    [editorWillMount] registers the wgsl language, its tokens provider, its
    configuration and the hover provider, unless a language with id wgsl is
    registered already. *)

Module Mount.

(** The registries of the [monaco] namespace that the function reads and
    writes: the ids of the registered languages, the language ids a
    tokens provider, a configuration and a hover provider were registered
    for (one entry per call), and the names of the defined themes. *)
Record Monaco := {
  languages : list string;
  monarchTokensProviders : list string;
  languageConfigurations : list string;
  hoverProviders : list string;
  themes : list string
}.

(** [monaco.languages.register({ id })] *)
Definition register (id : string) (monaco : Monaco) : Monaco :=
  {| languages := languages monaco ++ [id];
     monarchTokensProviders := monarchTokensProviders monaco;
     languageConfigurations := languageConfigurations monaco;
     hoverProviders := hoverProviders monaco;
     themes := themes monaco |}.

(** [monaco.languages.setMonarchTokensProvider(id, wgslLanguageDef)] *)
Definition setMonarchTokensProvider (id : string) (monaco : Monaco) : Monaco :=
  {| languages := languages monaco;
     monarchTokensProviders := monarchTokensProviders monaco ++ [id];
     languageConfigurations := languageConfigurations monaco;
     hoverProviders := hoverProviders monaco;
     themes := themes monaco |}.

(** [monaco.languages.setLanguageConfiguration(id, wgslConfiguration)] *)
Definition setLanguageConfiguration (id : string) (monaco : Monaco) : Monaco :=
  {| languages := languages monaco;
     monarchTokensProviders := monarchTokensProviders monaco;
     languageConfigurations := languageConfigurations monaco ++ [id];
     hoverProviders := hoverProviders monaco;
     themes := themes monaco |}.

(** [monaco.languages.registerHoverProvider(id, { provideHover })] *)
Definition registerHoverProvider (id : string) (monaco : Monaco) : Monaco :=
  {| languages := languages monaco;
     monarchTokensProviders := monarchTokensProviders monaco;
     languageConfigurations := languageConfigurations monaco;
     hoverProviders := hoverProviders monaco ++ [id];
     themes := themes monaco |}.

(** [editorWillMount(monaco)]. [defineMonacoTheme] comes from
    [theme/monacotheme], which is not among the sources; it is a
    parameter. *)
Definition editorWillMount (defineMonacoTheme : Monaco → string → Monaco)
    (monaco : Monaco) : Monaco :=
  if bool_decide (Exists (λ id, id = "wgsl") (languages monaco)) then monaco
  else
    let monaco := register "wgsl" monaco in
    let monaco := setMonarchTokensProvider "wgsl" monaco in
    let monaco := setLanguageConfiguration "wgsl" monaco in
    let monaco := registerHoverProvider "wgsl" monaco in
    defineMonacoTheme monaco "global".

(** A theme definition that touches the themes only. *)
Definition keepsLanguages (defineMonacoTheme : Monaco → string → Monaco) : Prop :=
  ∀ monaco name,
    languages (defineMonacoTheme monaco name) = languages monaco ∧
    hoverProviders (defineMonacoTheme monaco name) = hoverProviders monaco.

(** Sample data: [monaco.editor.defineTheme] under the given name, and a
    fresh Monaco with its stock languages. *)
Definition defineTheme (monaco : Monaco) (name : string) : Monaco :=
  {| languages := languages monaco;
     monarchTokensProviders := monarchTokensProviders monaco;
     languageConfigurations := languageConfigurations monaco;
     hoverProviders := hoverProviders monaco;
     themes := themes monaco ++ [name] |}.

Definition freshMonaco : Monaco :=
  {| languages := ["plaintext"; "javascript"];
     monarchTokensProviders := ["javascript"];
     languageConfigurations := ["javascript"];
     hoverProviders := [];
     themes := ["vs"; "vs-dark"] |}.

End Mount.

(** ** The buffer shader

    The second sample shader: [fillBuffer] fills a storage buffer, the
    helper [imageMain] reads one element of it for a pixel, and the
    kernel [imageMain] stores the colour unless the thread is outside the
    viewport. A [uint] is an integer modulo 2^32; the floating point
    values are opaque (type [T]). *)

Module Shaders.

Definition uint (z : Z) : Z := z mod 2 ^ 32.

(** [int2(width, height)]: a [uint] read as a signed 32-bit integer. *)
Definition int (z : Z) : Z :=
  if uint z <? 2 ^ 31 then uint z else uint z - 2 ^ 32.

Section Image.
Context {T : Type} (one : T).

(** [float4 imageMain(uint2 dispatchThreadID, int2 screenSize)]. In the
    index the signed [screenSize.x] is converted to [uint] and the sum
    wraps; reading the buffer outside its elements is [None]. *)
Definition imageMain (buf : list T) (dispatchThreadID : Z * Z)
    (screenSize : Z * Z) : option (T * T * T * T) :=
  let idx := uint (dispatchThreadID.1 + dispatchThreadID.2 * uint screenSize.1) in
  rand ← buf !! Z.to_nat (idx mod 131072);
  Some (rand, rand, rand, one).

(** [void imageMain(uint3 dispatchThreadID)]: the colour is computed
    first, the viewport test follows, then the store. The screen maps a
    pixel to its colour. *)
Definition imageMainKernel (buf : list T) (width height : Z)
    (dispatchThreadID : Z * Z * Z) (screen : gmap (Z * Z) (T * T * T * T))
  : option (gmap (Z * Z) (T * T * T * T)) :=
  let xy := (dispatchThreadID.1.1, dispatchThreadID.1.2) in
  color ← imageMain buf xy (int width, int height);
  if bool_decide (width ≤ xy.1) || bool_decide (height ≤ xy.2) then Some screen
  else Some (<[xy := color]> screen).

End Image.

End Shaders.

(** ** The metadata editor

    [userIsAuthor] of the metadata editor and the controls it gates. A
    signed-out user is [None]; the author profile is an object or
    [false] ([None]). *)

Module Metadata.

Record User := { userId : string }.

Record AuthorProfile := {
  id : string;
  username : option string;
  avatar_url : option string
}.

Inductive Visibility := private | unlisted | public.

(** [userIsAuthor()] *)
Definition userIsAuthor (user : option User)
    (authorProfile : option AuthorProfile) : bool :=
  match user with
  | Some u =>
      match authorProfile with
      | None => true
      | Some profile => bool_decide (userId u = id profile)
      end
  | None => false
  end.

(** What a grid item shows: an input the user can change, or plain text. *)
Inductive Item := TextField (value : string) | Typography (value : string).

(** The grid items of the component: title, visibility select,
    description, author (avatar url and user name, each possibly null),
    Save button. *)
Record Rendered := {
  titleItem : Item;
  visibilityItem : option Visibility;
  descriptionItem : Item;
  authorItem : option (option string * option string);
  saveButton : bool
}.

Definition MetadataEditor (user : option User)
    (authorProfile : option AuthorProfile)
    (title description : string) (visibility : Visibility) : Rendered :=
  {| titleItem :=
       if userIsAuthor user authorProfile then TextField title
       else Typography title;
     visibilityItem :=
       if userIsAuthor user authorProfile then Some visibility else None;
     descriptionItem :=
       if userIsAuthor user authorProfile then TextField description
       else Typography description;
     authorItem :=
       match authorProfile with
       | Some profile => Some (avatar_url profile, username profile)
       | None => None
       end;
     saveButton := userIsAuthor user authorProfile |}.

(** Sample data. *)
Definition alice : User := {| userId := "alice" |}.

Definition bobProfile : AuthorProfile :=
  {| id := "bob"; username := Some "bob"; avatar_url := None |}.

End Metadata.

(** ** The shader list

    The links of the pagination of [ShaderList]. A page number is a
    JavaScript number holding a natural number, or [null]. *)

Module ShaderList.




End ShaderList.

(** ** Facts about the atoms *)

Module AtomsFacts.
Import Atoms.

Lemma setCode_other_atoms value st :
  playAtom (setCode value st) = playAtom st ∧
  resetAtom (setCode value st) = resetAtom st ∧
  hotReloadAtom (setCode value st) = hotReloadAtom st ∧
  manualReloadAtom (setCode value st) = manualReloadAtom st ∧
  parseErrorAtom (setCode value st) = parseErrorAtom st ∧
  loadedTexturesAtom (setCode value st) = loadedTexturesAtom st ∧
  entryPointsAtom (setCode value st) = entryPointsAtom st ∧
  sliderRefMapAtom (setCode value st) = sliderRefMapAtom st.
Proof. repeat split. Qed.

Lemma setCode_idempotent value st :
  setCode value (setCode value st) = setCode value st.
Proof. reflexivity. Qed.

Lemma edits_snoc values value st :
  edits (values ++ [value]) st = setCode value (edits values st).
Proof. unfold edits. by rewrite foldl_app. Qed.

(** C7, as the code has it: the code atom holds the text alone. Every
    [setCode] call replaces the stored text by its argument and touches
    nothing else, so after any sequence of edits the text read back is
    that of the last edit (the initial text when there was none). *)
Theorem code_is_last_edit (values : list string) (st : Store) (value : string) :
  code (setCode value st) = value ∧
  code (edits values st) = default (code st) (last values).
Proof.
  split; [reflexivity|].
  induction values as [|v values IH] using rev_ind; [reflexivity|].
  rewrite edits_snoc, last_snoc. reflexivity.
Qed.

(** There is no revision counter: setting the same text twice leaves the
    store as it was after the first call, so no counter read from the
    store can have gone up by one with every call. *)
Lemma no_revision_counter_counterexample :
  setCode "fn f() {}" (setCode "fn f() {}" initialStore)
    = setCode "fn f() {}" initialStore ∧
  ¬ ∃ revisionOf : Store → N,
      ∀ value st, revisionOf (setCode value st) = (revisionOf st + 1)%N.
Proof.
  split; [reflexivity|]. intros [revisionOf Hincr].
  specialize (Hincr "fn f() {}" (setCode "fn f() {}" initialStore)).
  rewrite setCode_idempotent in Hincr. lia.
Qed.

(** C10: the initial values of the atoms. Playing, no reset requested,
    hot reload off, no manual reload requested; the stored diagnostic is
    a success with empty summary at row 0, column 0; no entry point; two
    texture slots, both the blank texture. *)
Theorem initial_runtime_state :
  playAtom initialStore = true ∧
  resetAtom initialStore = false ∧
  hotReloadAtom initialStore = false ∧
  manualReloadAtom initialStore = false ∧
  parseErrorAtom initialStore =
    {| summary := EmptyString;
       position := {| row := 0; col := 0 |};
       success := true |} ∧
  entryPointsAtom initialStore = [] ∧
  length (loadedTexturesAtom initialStore) = 2%nat ∧
  loadedTexturesAtom initialStore
    = ["/textures/blank.png"; "/textures/blank.png"].
Proof. repeat split. Qed.

End AtomsFacts.

(** ** Facts about the Monaco component *)

Module EditorFacts.
Import Atoms Editor.

Lemma getLineCount_pos model : 1 ≤ getLineCount model.
Proof. unfold getLineCount, modelLines. simpl. lia. Qed.

Lemma getLineContent_is_Some model n :
  is_Some (getLineContent model n) ↔ 1 ≤ n ≤ getLineCount model.
Proof.
  unfold getLineContent. case_bool_decide as Hout.
  - split; [intros [? ?]; discriminate | lia].
  - split; [lia | intros _].
    apply lookup_lt_is_Some. unfold getLineCount in *. lia.
Qed.

Lemma getLineMaxColumn_is_Some model n :
  is_Some (getLineMaxColumn model n) ↔ 1 ≤ n ≤ getLineCount model.
Proof.
  rewrite <- getLineContent_is_Some. unfold getLineMaxColumn.
  destruct (getLineContent model n); simpl; split; intros [? ?]; eauto; discriminate.
Qed.

Lemma getLineFirstNonWhitespaceColumn_is_Some model n :
  is_Some (getLineFirstNonWhitespaceColumn model n) ↔ 1 ≤ n ≤ getLineCount model.
Proof.
  rewrite <- getLineContent_is_Some. unfold getLineFirstNonWhitespaceColumn.
  destruct (getLineContent model n); simpl; split; intros [? ?]; eauto; discriminate.
Qed.

(** The first non-blank column of a line lies on the line. *)
Lemma firstNonWhitespaceIndex_bounds str :
  -1 ≤ firstNonWhitespaceIndex str < Z.of_nat (String.length str).
Proof.
  induction str as [|c rest IH]; simpl; [lia|].
  destruct (isSpaceOrTab c); [|lia].
  destruct (Z.eqb_spec (firstNonWhitespaceIndex rest) (-1)); lia.
Qed.

(** A marker on a line of the document exists. *)
Lemma lineMarker_is_Some model parseError line :
  1 ≤ line ≤ getLineCount model →
  ∃ firstColumn lastColumn,
    getLineFirstNonWhitespaceColumn model line = Some firstColumn ∧
    getLineMaxColumn model line = Some lastColumn ∧
    lineMarker model parseError line =
      Some {| startLineNumber := line; startColumn := firstColumn;
              endLineNumber := line; endColumn := lastColumn;
              message := summary parseError; severity := Error |}.
Proof.
  intros Hline.
  destruct (proj2 (getLineFirstNonWhitespaceColumn_is_Some model line) Hline)
    as [firstColumn Hfirst].
  destruct (proj2 (getLineMaxColumn_is_Some model line) Hline)
    as [lastColumn Hlast].
  exists firstColumn, lastColumn. unfold lineMarker.
  rewrite Hfirst, Hlast. auto.
Qed.

Lemma wholeDocumentMarker_is_Some model parseError :
  ∃ lastColumn,
    getLineMaxColumn model (getLineCount model) = Some lastColumn ∧
    wholeDocumentMarker model parseError =
      Some {| startLineNumber := 1; startColumn := 1;
              endLineNumber := getLineCount model; endColumn := lastColumn;
              message := summary parseError; severity := Error |}.
Proof.
  pose proof (getLineCount_pos model) as Hpos.
  destruct (proj2 (getLineMaxColumn_is_Some model (getLineCount model)))
    as [lastColumn Hlast]; [lia|].
  exists lastColumn. unfold wholeDocumentMarker. rewrite Hlast. auto.
Qed.

(** The corrected row of the design document, for a reported row inside
    the document. *)
Lemma correctedRow_cases model parseError maxColumn :
  getLineMaxColumn model (row (position parseError)) = Some maxColumn →
  correctedRow model parseError =
    if bool_decide (col (position parseError) = maxColumn)
    then row (position parseError) + 1
    else row (position parseError).
Proof.
  intros Hmax. unfold correctedRow. rewrite Hmax.
  repeat case_bool_decide; congruence.
Qed.

Lemma correctedRow_outside model parseError :
  ¬ (1 ≤ row (position parseError) ≤ getLineCount model) →
  correctedRow model parseError = row (position parseError).
Proof.
  intros Hout. unfold correctedRow. case_bool_decide as Heq; [|done].
  exfalso. apply Hout. apply getLineMaxColumn_is_Some. eauto.
Qed.

(** The two failure branches of the effect, in terms of the reported row. *)
Lemma mapToMarkers_reported_in_range model parseError :
  success parseError = false →
  inDocumentRange model (row (position parseError)) →
  mapToMarkers model parseError =
    marker ← lineMarker model parseError (correctedRow model parseError);
    Some [marker].
Proof.
  intros Hfail [Hlo Hhi]. unfold mapToMarkers. rewrite Hfail.
  rewrite !bool_decide_eq_true_2 by lia. simpl.
  destruct (proj2 (getLineMaxColumn_is_Some model (row (position parseError))))
    as [maxColumn Hmax]; [lia|].
  rewrite (correctedRow_cases _ _ _ Hmax). rewrite Hmax. simpl.
  unfold lineMarker.
  generalize (if bool_decide (col (position parseError) = maxColumn)
              then row (position parseError) + 1
              else row (position parseError)).
  intros line.
  destruct (getLineFirstNonWhitespaceColumn model line); simpl; [|done].
  destruct (getLineMaxColumn model line); done.
Qed.

Lemma mapToMarkers_reported_out_of_range model parseError :
  success parseError = false →
  ¬ inDocumentRange model (row (position parseError)) →
  mapToMarkers model parseError =
    marker ← wholeDocumentMarker model parseError; Some [marker].
Proof.
  intros Hfail Hout. unfold mapToMarkers. rewrite Hfail.
  unfold inDocumentRange in Hout.
  replace (bool_decide (0 < row (position parseError)) &&
           bool_decide (row (position parseError) < getLineCount model))
    with false.
  - unfold wholeDocumentMarker.
    destruct (getLineMaxColumn model (getLineCount model)); done.
  - symmetry. apply andb_false_iff.
    destruct (decide (0 < row (position parseError))).
    + right. apply bool_decide_eq_false_2. lia.
    + left. by apply bool_decide_eq_false_2.
Qed.

Lemma mapToMarkers_success model parseError :
  success parseError = true → mapToMarkers model parseError = Some [].
Proof. intros Hok. unfold mapToMarkers. by rewrite Hok. Qed.

(** *** The claims about the marker mapping *)

(** C5: for every diagnostic with [success = true], whatever the document,
    the marker list handed to the editor is empty, so a mounted editor
    ends with no marker of the owner, whatever markers it had. *)
Theorem success_clears_markers (model : TextModel) (message : string)
    (reported : Position) (markers : list Marker) :
  let parseError :=
    {| summary := message; position := reported; success := true |} in
  mapToMarkers model parseError = Some [] ∧
  parseErrorEffect (Some model) parseError markers = Some [].
Proof. split; reflexivity. Qed.

(** C9: for every diagnostic the mapping returns (no accessor throws) and
    produces at most one marker: no marker for a success, and for a
    failure exactly one, which is either a marker on one line or the
    whole-document marker. *)
Theorem at_most_one_marker (model : TextModel) (parseError : ParseError) :
  ∃ markers,
    mapToMarkers model parseError = Some markers ∧
    (length markers ≤ 1)%nat ∧
    if success parseError then markers = []
    else ∃ marker,
      markers = [marker] ∧
      (wholeDocumentMarker model parseError = Some marker ∨
       ∃ line, lineMarker model parseError line = Some marker).
Proof.
  destruct (success parseError) eqn:Hok.
  - exists []. rewrite mapToMarkers_success by done. simpl. auto with lia.
  - destruct (decide (inDocumentRange model (row (position parseError))))
      as [Hin|Hout].
    + rewrite mapToMarkers_reported_in_range by done.
      destruct (lineMarker_is_Some model parseError
                  (correctedRow model parseError)) as (fc & lc & _ & _ & Hmk).
      { destruct Hin as [Hlo Hhi].
        destruct (proj2 (getLineMaxColumn_is_Some model
                           (row (position parseError)))) as [mc Hmc]; [lia|].
        rewrite (correctedRow_cases _ _ _ Hmc). case_bool_decide; lia. }
      rewrite Hmk. simpl. eexists. split; [done|]. split; [simpl; lia|].
      eexists. split; [done|]. right. eauto.
    + rewrite mapToMarkers_reported_out_of_range by done.
      destruct (wholeDocumentMarker_is_Some model parseError)
        as (lc & _ & Hmk).
      rewrite Hmk. simpl. eexists. split; [done|]. split; [simpl; lia|].
      eexists. split; [done|]. by left.
Qed.

(** C6: for every failure diagnostic whose corrected row lies within
    [[1, documentLineCount)], the mapping produces a single marker on that
    row, from the row's first non-whitespace column to its maximum
    column, with the summary as message and severity error. *)
Theorem marker_on_corrected_row (model : TextModel) (parseError : ParseError) :
  success parseError = false →
  inDocumentRange model (correctedRow model parseError) →
  ∃ firstColumn lastColumn,
    getLineFirstNonWhitespaceColumn model (correctedRow model parseError)
      = Some firstColumn ∧
    getLineMaxColumn model (correctedRow model parseError) = Some lastColumn ∧
    mapToMarkers model parseError =
      Some [ {| startLineNumber := correctedRow model parseError;
                startColumn := firstColumn;
                endLineNumber := correctedRow model parseError;
                endColumn := lastColumn;
                message := summary parseError;
                severity := Error |} ].
Proof.
  intros Hfail [Hlo Hhi].
  assert (inDocumentRange model (row (position parseError))) as Hin.
  { destruct (decide (1 ≤ row (position parseError) ≤ getLineCount model))
      as [Hdoc|Hout].
    - destruct (proj2 (getLineMaxColumn_is_Some model _) Hdoc) as [mc Hmc].
      rewrite (correctedRow_cases _ _ _ Hmc) in Hlo, Hhi.
      unfold inDocumentRange. case_bool_decide; lia.
    - rewrite (correctedRow_outside _ _ Hout) in Hlo, Hhi.
      unfold inDocumentRange. lia. }
  destruct (lineMarker_is_Some model parseError (correctedRow model parseError))
    as (fc & lc & Hfc & Hlc & Hmk); [lia|].
  exists fc, lc. split; [done|]. split; [done|].
  rewrite mapToMarkers_reported_in_range by done. by rewrite Hmk.
Qed.

(** The example of the design document: a 10-line document, the diagnostic
    at row 5, column 3, row 5 starting at column 2: the marker spans row 5
    from column 2 to the maximum column of row 5. *)
Lemma marker_on_corrected_row_witness :
  success (failure "unknown identifier" 5 3) = false ∧
  getLineCount tenLines = 10 ∧
  getLineFirstNonWhitespaceColumn tenLines 5 = Some 2 ∧
  getLineMaxColumn tenLines 5 = Some 7 ∧
  mapToMarkers tenLines (failure "unknown identifier" 5 3) =
    Some [ {| startLineNumber := 5; startColumn := 2;
              endLineNumber := 5; endColumn := 7;
              message := "unknown identifier"; severity := Error |} ].
Proof.
  do 4 (split; [reflexivity|]).
  destruct (marker_on_corrected_row tenLines (failure "unknown identifier" 5 3))
    as (fc & lc & Hfc & Hlc & Hmk).
  - reflexivity.
  - vm_compute. split; [discriminate | reflexivity].
  - vm_compute in Hfc, Hlc. rewrite Hmk.
    injection Hfc as <-. injection Hlc as <-. reflexivity.
Defined.

(** The same example for any 10-line document: it needs column 3 not to
    be the end of row 5, otherwise the marker moves to row 6. *)
Lemma marker_on_row_5 (model : TextModel) (msg : string) (lastColumn : Z) :
  getLineCount model = 10 →
  getLineFirstNonWhitespaceColumn model 5 = Some 2 →
  getLineMaxColumn model 5 = Some lastColumn →
  lastColumn ≠ 3 →
  mapToMarkers model (failure msg 5 3) =
    Some [ {| startLineNumber := 5; startColumn := 2;
              endLineNumber := 5; endColumn := lastColumn;
              message := msg; severity := Error |} ].
Proof.
  intros Hcount Hfirst Hlast Hne.
  rewrite mapToMarkers_reported_in_range;
    [|done|unfold inDocumentRange; simpl; lia].
  rewrite (correctedRow_cases model (failure msg 5 3) lastColumn Hlast). simpl.
  rewrite bool_decide_eq_false_2 by congruence.
  unfold lineMarker. simpl. by rewrite Hfirst, Hlast.
Qed.

(** Where the effect and the design document's wording agree: everywhere
    but at an end-of-line position on the line before the last. *)
Lemma mapToMarkers_spec_agrees (model : TextModel) (parseError : ParseError) :
  ¬ (row (position parseError) + 1 = getLineCount model ∧
     getLineMaxColumn model (row (position parseError))
       = Some (col (position parseError))) →
  mapToMarkers model parseError = mapToMarkers_spec model parseError.
Proof.
  intros Hnot. unfold mapToMarkers_spec.
  destruct (success parseError) eqn:Hok; [by apply mapToMarkers_success|].
  destruct (decide (inDocumentRange model (row (position parseError))))
    as [Hin|Hout].
  - rewrite mapToMarkers_reported_in_range by done.
    rewrite bool_decide_eq_true_2; [done|].
    destruct Hin as [Hlo Hhi]. unfold inDocumentRange, correctedRow.
    case_bool_decide as Heol; [|lia].
    destruct (decide (row (position parseError) + 1 = getLineCount model));
      [exfalso; by apply Hnot | lia].
  - rewrite mapToMarkers_reported_out_of_range by done.
    rewrite bool_decide_eq_false_2; [done|].
    unfold inDocumentRange in *.
    destruct (decide (1 ≤ row (position parseError) ≤ getLineCount model))
      as [Hdoc|Hnodoc].
    + unfold correctedRow. case_bool_decide; lia.
    + rewrite correctedRow_outside by done. lia.
Qed.

(** C3, as the code has it: for every failure diagnostic whose reported
    row (before any end-of-line correction) lies outside
    [[1, documentLineCount)], the mapping produces exactly one marker, from
    line 1 column 1 to the last line's maximum column, with the
    diagnostic's summary. *)
Theorem fallback_when_reported_row_out_of_range
    (model : TextModel) (parseError : ParseError) :
  success parseError = false →
  ¬ inDocumentRange model (row (position parseError)) →
  ∃ lastColumn,
    getLineMaxColumn model (getLineCount model) = Some lastColumn ∧
    mapToMarkers model parseError =
      Some [ {| startLineNumber := 1; startColumn := 1;
                endLineNumber := getLineCount model;
                endColumn := lastColumn;
                message := summary parseError;
                severity := Error |} ].
Proof.
  intros Hfail Hout.
  destruct (wholeDocumentMarker_is_Some model parseError) as (lc & Hlc & Hmk).
  exists lc. split; [done|].
  rewrite mapToMarkers_reported_out_of_range by done. by rewrite Hmk.
Qed.

(** The example of the design document: a 10-line document and the
    diagnostic at row 10, at the maximum column of row 10. Row 10 is
    outside [[1, 10)], and the whole-document marker results. *)
Lemma fallback_when_reported_row_out_of_range_witness :
  getLineCount tenLines = 10 ∧
  getLineMaxColumn tenLines 10 = Some 1 ∧
  mapToMarkers tenLines (failure "unexpected end of file" 10 1) =
    Some [ {| startLineNumber := 1; startColumn := 1;
              endLineNumber := 10; endColumn := 1;
              message := "unexpected end of file"; severity := Error |} ].
Proof.
  do 2 (split; [reflexivity|]).
  destruct (fallback_when_reported_row_out_of_range tenLines
              (failure "unexpected end of file" 10 1)) as (lc & Hlc & Hmk).
  - reflexivity.
  - vm_compute. intros [_ Hlt]. discriminate Hlt.
  - vm_compute in Hlc. rewrite Hmk. injection Hlc as <-. reflexivity.
Defined.

(** With the corrected row in place of the reported one the statement
    fails: in the 10-line document, the diagnostic at row 9,
    at the maximum column of row 9, has corrected row 10, outside
    [[1, 10)], and yet the marker is the one-line marker of row 10, not the
    whole-document marker. *)
Lemma fallback_on_corrected_row_counterexample :
  let parseError := failure "expected expression" 9 2 in
  success parseError = false ∧
  getLineMaxColumn tenLines 9 = Some 2 ∧
  correctedRow tenLines parseError = 10 ∧
  ¬ inDocumentRange tenLines (correctedRow tenLines parseError) ∧
  mapToMarkers tenLines parseError =
    Some [ {| startLineNumber := 10; startColumn := 0;
              endLineNumber := 10; endColumn := 1;
              message := "expected expression"; severity := Error |} ] ∧
  mapToMarkers tenLines parseError ≠
    Some [ {| startLineNumber := 1; startColumn := 1;
              endLineNumber := 10; endColumn := 1;
              message := "expected expression"; severity := Error |} ].
Proof.
  simpl. do 3 (split; [reflexivity|]).
  split; [vm_compute; intros [_ Hlt]; discriminate Hlt|].
  split; [reflexivity|]. vm_compute. discriminate.
Qed.

(** C4, as the code has it: for every failure diagnostic whose column
    equals the maximum column of the reported row, the range decision is
    made on the reported row: inside [[1, documentLineCount)] the marker is
    placed on row + 1, outside it the whole-document marker is placed. *)
Theorem end_of_line_correction (model : TextModel) (parseError : ParseError) :
  success parseError = false →
  getLineMaxColumn model (row (position parseError))
    = Some (col (position parseError)) →
  (inDocumentRange model (row (position parseError)) →
   ∃ firstColumn lastColumn,
     getLineFirstNonWhitespaceColumn model (row (position parseError) + 1)
       = Some firstColumn ∧
     getLineMaxColumn model (row (position parseError) + 1)
       = Some lastColumn ∧
     mapToMarkers model parseError =
       Some [ {| startLineNumber := row (position parseError) + 1;
                 startColumn := firstColumn;
                 endLineNumber := row (position parseError) + 1;
                 endColumn := lastColumn;
                 message := summary parseError;
                 severity := Error |} ]) ∧
  (¬ inDocumentRange model (row (position parseError)) →
   ∃ lastColumn,
     getLineMaxColumn model (getLineCount model) = Some lastColumn ∧
     mapToMarkers model parseError =
       Some [ {| startLineNumber := 1; startColumn := 1;
                 endLineNumber := getLineCount model;
                 endColumn := lastColumn;
                 message := summary parseError;
                 severity := Error |} ]).
Proof.
  intros Hfail Heol. split.
  - intros Hin.
    assert (correctedRow model parseError = row (position parseError) + 1)
      as Hrow.
    { unfold correctedRow. by rewrite bool_decide_eq_true_2. }
    destruct (lineMarker_is_Some model parseError
                (row (position parseError) + 1))
      as (fc & lc & Hfc & Hlc & Hmk).
    { destruct Hin. lia. }
    exists fc, lc. split; [done|]. split; [done|].
    rewrite mapToMarkers_reported_in_range by done.
    rewrite Hrow. by rewrite Hmk.
  - intros Hout.
    destruct (wholeDocumentMarker_is_Some model parseError)
      as (lc & Hlc & Hmk).
    exists lc. split; [done|].
    rewrite mapToMarkers_reported_out_of_range by done. by rewrite Hmk.
Qed.

(** An end-of-line position on line 1 of a two-line document: the marker
    is placed on line 2. *)
Lemma end_of_line_correction_witness :
  success (failure "missing semicolon" 1 9) = false ∧
  getLineMaxColumn twoLines 1 = Some 9 ∧
  inDocumentRange twoLines 1 ∧
  mapToMarkers twoLines (failure "missing semicolon" 1 9) =
    Some [ {| startLineNumber := 2; startColumn := 1;
              endLineNumber := 2; endColumn := 2;
              message := "missing semicolon"; severity := Error |} ].
Proof.
  assert (inDocumentRange twoLines 1) as Hin.
  { vm_compute. split; [discriminate | reflexivity]. }
  do 2 (split; [reflexivity|]). split; [exact Hin|].
  destruct (end_of_line_correction twoLines (failure "missing semicolon" 1 9))
    as [Hinside _]; [reflexivity | reflexivity |].
  destruct (Hinside Hin) as (fc & lc & Hfc & Hlc & Hmk).
  vm_compute in Hfc, Hlc. rewrite Hmk.
  injection Hfc as <-. injection Hlc as <-. reflexivity.
Defined.

(** A decision on the corrected row is not what happens: in the two-line
    document the diagnostic at row 1,
    at the maximum column of row 1, has corrected row 2, outside [[1, 2)].
    A decision on the corrected row gives the whole-document marker; the
    effect gives the one-line marker of row 2. *)
Lemma decision_on_corrected_row_counterexample :
  let parseError := failure "missing semicolon" 1 9 in
  success parseError = false ∧
  getLineMaxColumn twoLines (row (position parseError))
    = Some (col (position parseError)) ∧
  correctedRow twoLines parseError = 2 ∧
  ¬ inDocumentRange twoLines (correctedRow twoLines parseError) ∧
  mapToMarkers_spec twoLines parseError =
    Some [ {| startLineNumber := 1; startColumn := 1;
              endLineNumber := 2; endColumn := 2;
              message := "missing semicolon"; severity := Error |} ] ∧
  mapToMarkers twoLines parseError =
    Some [ {| startLineNumber := 2; startColumn := 1;
              endLineNumber := 2; endColumn := 2;
              message := "missing semicolon"; severity := Error |} ] ∧
  mapToMarkers twoLines parseError ≠ mapToMarkers_spec twoLines parseError.
Proof.
  simpl. do 3 (split; [reflexivity|]).
  split; [vm_compute; intros [_ Hlt]; discriminate Hlt|].
  do 2 (split; [reflexivity|]). vm_compute. discriminate.
Qed.

End EditorFacts.

(** ** Facts about the controller and the registries *)

Module ControllerFacts.
Import Atoms Controller.

Local Open Scope nat_scope.

(** *** The UI layer *)

Lemma disposeAll_nextHandle handles ui :
  nextHandle (disposeAll handles ui) = nextHandle ui.
Proof. induction handles as [|h handles IH]; simpl; auto. Qed.

Lemma disposeAll_lookup_elem handles ui (h : nat) :
  h ∈ handles → controls (disposeAll handles ui) !! h = None.
Proof.
  induction handles as [|h' handles IH]; simpl; intros Hin.
  - by apply elem_of_nil in Hin.
  - destruct (decide (h' = h)) as [->|Hne].
    + apply lookup_delete_eq.
    + rewrite lookup_delete_ne by done. apply IH.
      apply elem_of_cons in Hin as [?|?]; [congruence|done].
Qed.

Lemma disposeAll_lookup_other handles ui (h : nat) :
  h ∉ handles → controls (disposeAll handles ui) !! h = controls ui !! h.
Proof.
  induction handles as [|h' handles IH]; simpl; intros Hnotin; [done|].
  apply not_elem_of_cons in Hnotin as [Hne Hrest].
  rewrite lookup_delete_ne by done. by apply IH.
Qed.

(** *** Binding the declared uniforms *)

Lemma bindUniform_nextHandle acc u :
  nextHandle acc.2 ≤ nextHandle (bindUniform acc u).2.
Proof.
  unfold bindUniform. destruct (acc.1 !! uniformName u); simpl; lia.
Qed.

Lemma bindUniform_keeps acc u name handle :
  acc.1 !! name = Some handle → (bindUniform acc u).1 !! name = Some handle.
Proof.
  intros Hname. unfold bindUniform.
  destruct (acc.1 !! uniformName u) eqn:Hu; simpl; [done|].
  rewrite lookup_insert_ne; [done|]. congruence.
Qed.

Lemma bindUniform_binds acc u :
  is_Some ((bindUniform acc u).1 !! uniformName u).
Proof.
  unfold bindUniform.
  destruct (acc.1 !! uniformName u) eqn:Hu; simpl; [by rewrite Hu|].
  rewrite lookup_insert_eq. eauto.
Qed.

Lemma bindUniform_other acc u name :
  name ≠ uniformName u → (bindUniform acc u).1 !! name = acc.1 !! name.
Proof.
  intros Hne. unfold bindUniform.
  destruct (acc.1 !! uniformName u); simpl; [done|].
  by rewrite lookup_insert_ne.
Qed.

Lemma bindUniform_origin acc u name handle :
  (bindUniform acc u).1 !! name = Some handle →
  acc.1 !! name = Some handle ∨
  (acc.1 !! name = None ∧ handle = nextHandle acc.2 ∧
   nextHandle (bindUniform acc u).2 = S (nextHandle acc.2)).
Proof.
  unfold bindUniform.
  destruct (acc.1 !! uniformName u) eqn:Hu; simpl; [auto|].
  intros Hnew. destruct (decide (uniformName u = name)) as [<-|Hne].
  - rewrite lookup_insert_eq in Hnew. right. split; [done|].
    split; congruence.
  - rewrite lookup_insert_ne in Hnew by done. auto.
Qed.

Lemma bindUniform_value acc u (h : nat) :
  h < nextHandle acc.2 →
  value <$> controls (bindUniform acc u).2 !! h = value <$> controls acc.2 !! h.
Proof.
  intros Hlt. unfold bindUniform.
  destruct (acc.1 !! uniformName u) as [handle|]; simpl.
  - rewrite lookup_alter. case_decide; [|done]. subst.
    by destruct (controls acc.2 !! h).
  - rewrite lookup_insert_ne; [done|lia].
Qed.

Lemma bindUniform_live acc u (h : nat) :
  is_Some (controls acc.2 !! h) → is_Some (controls (bindUniform acc u).2 !! h).
Proof.
  intros Hlive. unfold bindUniform.
  destruct (acc.1 !! uniformName u) as [handle|]; simpl.
  - rewrite lookup_alter. case_decide; [|done]. subst.
    by apply fmap_is_Some.
  - rewrite lookup_insert. case_decide; eauto.
Qed.

Lemma bindUniform_created_live acc u name handle :
  acc.1 !! name = None →
  (bindUniform acc u).1 !! name = Some handle →
  is_Some (controls (bindUniform acc u).2 !! handle).
Proof.
  intros Hnone. unfold bindUniform.
  destruct (acc.1 !! uniformName u) eqn:Hu; simpl; [congruence|].
  intros Hnew. destruct (decide (uniformName u = name)) as [<-|Hne].
  - rewrite lookup_insert_eq in Hnew. injection Hnew as <-.
    rewrite lookup_insert_eq. eauto.
  - rewrite lookup_insert_ne in Hnew by done. congruence.
Qed.

Lemma bindUniform_invariant acc u :
  handlesBelow acc.1 (nextHandle acc.2) → injective acc.1 →
  handlesBelow (bindUniform acc u).1 (nextHandle (bindUniform acc u).2) ∧
  injective (bindUniform acc u).1.
Proof.
  intros Hbelow Hinj. split.
  - intros name handle Hnew.
    pose proof (bindUniform_nextHandle acc u) as Hmono.
    destruct (bindUniform_origin _ _ _ _ Hnew) as [Hold|(_ & -> & ->)];
      [|lia].
    apply Hbelow in Hold. lia.
  - intros n1 n2 handle H1 H2.
    destruct (bindUniform_origin _ _ _ _ H1) as [Ho1|(Hn1 & -> & _)];
      destruct (bindUniform_origin _ _ _ _ H2) as [Ho2|(Hn2 & Heq & _)].
    + eauto.
    + apply Hbelow in Ho1. lia.
    + apply Hbelow in Ho2. lia.
    + destruct (decide (n1 = uniformName u)) as [->|Hne1];
        destruct (decide (n2 = uniformName u)) as [->|Hne2]; [done| | |].
      * rewrite bindUniform_other in H2 by done. congruence.
      * rewrite bindUniform_other in H1 by done. congruence.
      * rewrite bindUniform_other in H1 by done. congruence.
Qed.

(** The same facts for the whole list of declarations. *)
Lemma bindAll_nextHandle uniforms acc :
  nextHandle acc.2 ≤ nextHandle (foldl bindUniform acc uniforms).2.
Proof.
  revert acc. induction uniforms as [|u uniforms IH]; intros acc; simpl; [lia|].
  pose proof (bindUniform_nextHandle acc u). specialize (IH (bindUniform acc u)).
  lia.
Qed.

Lemma bindAll_keeps uniforms acc name handle :
  acc.1 !! name = Some handle →
  (foldl bindUniform acc uniforms).1 !! name = Some handle.
Proof.
  revert acc. induction uniforms as [|u uniforms IH]; intros acc; simpl; [done|].
  intros Hname. apply IH. by apply bindUniform_keeps.
Qed.

Lemma bindAll_undeclared uniforms acc name :
  name ∉ declaredNames uniforms →
  (foldl bindUniform acc uniforms).1 !! name = acc.1 !! name.
Proof.
  revert acc. induction uniforms as [|u uniforms IH]; intros acc; simpl; [done|].
  unfold declaredNames in *. simpl. rewrite not_elem_of_cons.
  intros [Hne Hrest]. rewrite IH by done. by apply bindUniform_other.
Qed.

Lemma bindAll_declared uniforms acc name :
  name ∈ declaredNames uniforms →
  is_Some ((foldl bindUniform acc uniforms).1 !! name).
Proof.
  revert acc. induction uniforms as [|u uniforms IH]; intros acc; simpl.
  - intros Hin. by apply elem_of_nil in Hin.
  - unfold declaredNames in *. simpl. rewrite elem_of_cons.
    intros [->|Hrest]; [|by apply IH].
    destruct (bindUniform_binds acc u) as [handle Hbound].
    exists handle. by apply bindAll_keeps.
Qed.

Lemma bindAll_value uniforms acc (h : nat) :
  h < nextHandle acc.2 →
  value <$> controls (foldl bindUniform acc uniforms).2 !! h
    = value <$> controls acc.2 !! h.
Proof.
  revert acc. induction uniforms as [|u uniforms IH]; intros acc; simpl; [done|].
  intros Hlt. pose proof (bindUniform_nextHandle acc u).
  rewrite IH by lia. by apply bindUniform_value.
Qed.

Lemma bindAll_live uniforms acc (h : nat) :
  is_Some (controls acc.2 !! h) →
  is_Some (controls (foldl bindUniform acc uniforms).2 !! h).
Proof.
  revert acc. induction uniforms as [|u uniforms IH]; intros acc; simpl; [done|].
  intros Hlive. apply IH. by apply bindUniform_live.
Qed.

Lemma bindAll_origin uniforms acc name handle :
  (foldl bindUniform acc uniforms).1 !! name = Some handle →
  acc.1 !! name = Some handle ∨
  (acc.1 !! name = None ∧
   nextHandle acc.2 ≤ handle < nextHandle (foldl bindUniform acc uniforms).2 ∧
   is_Some (controls (foldl bindUniform acc uniforms).2 !! handle)).
Proof.
  revert acc. induction uniforms as [|u uniforms IH]; intros acc; simpl; [auto|].
  intros Hnew.
  pose proof (bindUniform_nextHandle acc u) as Hmono.
  pose proof (bindAll_nextHandle uniforms (bindUniform acc u)) as Hmono'.
  destruct (IH _ Hnew) as [Hstep|(Hnone & Hrange & Hlive)].
  - destruct (bindUniform_origin _ _ _ _ Hstep) as [Hold|(Hnone & Heq & Hnext)];
      [by left|].
    right. split; [done|]. split; [lia|].
    apply bindAll_live. by eapply bindUniform_created_live.
  - right. split; [|split; [lia|done]].
    destruct (acc.1 !! name) as [old|] eqn:Hold; [|done].
    apply (bindUniform_keeps acc u) in Hold. congruence.
Qed.

Lemma bindAll_invariant uniforms acc :
  handlesBelow acc.1 (nextHandle acc.2) → injective acc.1 →
  handlesBelow (foldl bindUniform acc uniforms).1
               (nextHandle (foldl bindUniform acc uniforms).2) ∧
  injective (foldl bindUniform acc uniforms).1.
Proof.
  revert acc. induction uniforms as [|u uniforms IH]; intros acc; simpl; [auto|].
  intros Hbelow Hinj.
  destruct (bindUniform_invariant acc u Hbelow Hinj). by apply IH.
Qed.

(** *** The reconciliation *)

Lemma removed_handles uniforms (registry : gmap string nat) (h : nat) :
  h ∈ (map_to_list
         (filter (λ binding, binding.1 ∉ declaredNames uniforms) registry)).*2 ↔
  ∃ name, registry !! name = Some h ∧ name ∉ declaredNames uniforms.
Proof.
  rewrite list_elem_of_fmap. split.
  - intros ([name h'] & -> & Hin). simpl.
    apply elem_of_map_to_list, map_lookup_filter_Some in Hin. eauto.
  - intros (name & Hname & Hnot). exists (name, h). split; [done|].
    apply elem_of_map_to_list, map_lookup_filter_Some. eauto.
Qed.

Lemma kept_lookup uniforms (registry : gmap string nat) name :
  name ∈ declaredNames uniforms →
  filter (λ binding, binding.1 ∈ declaredNames uniforms) registry !! name
    = registry !! name.
Proof.
  intros Hin. destruct (registry !! name) as [h|] eqn:Hname.
  - by apply map_lookup_filter_Some.
  - apply map_lookup_filter_None. left. done.
Qed.

Lemma kept_lookup_undeclared uniforms (registry : gmap string nat) name :
  name ∉ declaredNames uniforms →
  filter (λ binding, binding.1 ∈ declaredNames uniforms) registry !! name = None.
Proof.
  intros Hnot. apply map_lookup_filter_None. right. intros h _. done.
Qed.

(** A handle bound to a name that stays declared is not among the
    disposed ones. *)
Lemma kept_not_disposed uniforms (registry : gmap string nat) name handle :
  injective registry →
  name ∈ declaredNames uniforms →
  registry !! name = Some handle →
  handle ∉ (map_to_list
    (filter (λ binding, binding.1 ∉ declaredNames uniforms) registry)).*2.
Proof.
  intros Hinj Hin Hname Hdisposed.
  apply removed_handles in Hdisposed as (other & Hother & Hnot).
  by rewrite (Hinj _ _ _ Hother Hname) in Hnot.
Qed.

(** Reconciliation keeps the registry consistent with the UI layer. *)
Lemma reconcile_wellBound uniforms registry ui :
  wellBound registry ui →
  wellBound (reconcile uniforms registry ui).1 (reconcile uniforms registry ui).2.
Proof.
  intros (Hbelow & Hinj & Hlive). unfold reconcile.
  set (removed := filter (λ binding, binding.1 ∉ declaredNames uniforms) registry).
  set (kept := filter (λ binding, binding.1 ∈ declaredNames uniforms) registry).
  set (start := (kept, disposeAll (map_to_list removed).*2 ui)).
  assert (handlesBelow start.1 (nextHandle start.2)) as Hbelow0.
  { intros name handle Hname. simpl. rewrite disposeAll_nextHandle.
    apply map_lookup_filter_Some in Hname as [Hname _]. eauto. }
  assert (injective start.1) as Hinj0.
  { intros n1 n2 handle H1 H2.
    apply map_lookup_filter_Some in H1 as [H1 _].
    apply map_lookup_filter_Some in H2 as [H2 _]. eauto. }
  destruct (bindAll_invariant uniforms start Hbelow0 Hinj0) as [Hb Hi].
  split; [done|]. split; [done|].
  intros name handle Hnew.
  destruct (bindAll_origin _ _ _ _ Hnew) as [Hold|(_ & _ & Hcreated)]; [|done].
  apply map_lookup_filter_Some in Hold as [Hold Hdecl]. simpl in Hdecl.
  apply bindAll_live. simpl. rewrite disposeAll_lookup_other.
  - eauto.
  - by eapply kept_not_disposed.
Qed.

(** C8: reconciling the registry against the new declarations keeps, for
    every name in both, the handle it had (the control stays live with
    the value it held); leaves no association for a name that is not
    declared, its control being disposed; and binds every name that is
    only in the declarations to a control created for it, whose handle no
    old association used. *)
Theorem reconcile_bindings (uniforms : list UniformDeclaration)
    (registry : gmap string nat) (ui : UiLayer) (name : string) :
  wellBound registry ui →
  let result := reconcile uniforms registry ui in
  (∀ handle,
     name ∈ declaredNames uniforms → registry !! name = Some handle →
     result.1 !! name = Some handle ∧
     is_Some (controls result.2 !! handle) ∧
     value <$> controls result.2 !! handle = value <$> controls ui !! handle) ∧
  (name ∉ declaredNames uniforms →
     result.1 !! name = None ∧
     ∀ handle, registry !! name = Some handle →
               controls result.2 !! handle = None) ∧
  (name ∈ declaredNames uniforms → registry !! name = None →
     ∃ handle,
       result.1 !! name = Some handle ∧
       is_Some (controls result.2 !! handle) ∧
       nextHandle ui ≤ handle ∧
       ∀ other, registry !! other ≠ Some handle).
Proof.
  intros (Hbelow & Hinj & Hlive) result. subst result. unfold reconcile.
  set (removed := filter (λ binding, binding.1 ∉ declaredNames uniforms) registry).
  set (kept := filter (λ binding, binding.1 ∈ declaredNames uniforms) registry).
  set (start := (kept, disposeAll (map_to_list removed).*2 ui)).
  assert (nextHandle start.2 = nextHandle ui) as Hnext
    by apply disposeAll_nextHandle.
  split; [|split].
  - intros handle Hdecl Hname.
    assert (controls start.2 !! handle = controls ui !! handle) as Hsame.
    { apply disposeAll_lookup_other. by eapply kept_not_disposed. }
    split; [|split].
    + apply bindAll_keeps. simpl. unfold kept. by rewrite kept_lookup.
    + apply bindAll_live. rewrite Hsame. eauto.
    + rewrite bindAll_value; [by rewrite Hsame|].
      rewrite Hnext. eauto.
  - intros Hnot. split.
    + rewrite bindAll_undeclared by done. by apply kept_lookup_undeclared.
    + intros handle Hname.
      assert (controls start.2 !! handle = None) as Hgone.
      { apply disposeAll_lookup_elem, removed_handles. eauto. }
      pose proof (bindAll_value uniforms start handle) as Hvalue.
      rewrite Hgone, Hnext in Hvalue. specialize (Hvalue (Hbelow _ _ Hname)).
      destruct (controls (foldl bindUniform start uniforms).2 !! handle);
        [discriminate Hvalue | reflexivity].
  - intros Hdecl Hnone.
    destruct (bindAll_declared uniforms start name Hdecl) as [handle Hnew].
    exists handle. split; [done|].
    destruct (bindAll_origin _ _ _ _ Hnew) as [Hold|(_ & Hrange & Hcreated)].
    + simpl in Hold. unfold kept in Hold. rewrite kept_lookup in Hold by done.
      congruence.
    + split; [done|]. rewrite Hnext in Hrange. split; [lia|].
      intros other Hother. apply Hbelow in Hother. lia.
Qed.

(** The example of the design document: the registry binds a and b, the
    new declarations are b and c. b keeps its handle and its value, a
    loses its association and its control, c gets a new control. *)
Lemma reconcile_bindings_witness :
  wellBound registryAB uiAB ∧
  let result := reconcile uniformsBC registryAB uiAB in
  registryAB !! "b" = Some 1 ∧ result.1 !! "b" = Some 1 ∧
  value <$> controls result.2 !! 1 = Some 7%Z ∧
  registryAB !! "a" = Some 0 ∧ result.1 !! "a" = None ∧
  controls result.2 !! 0 = None ∧
  registryAB !! "c" = None ∧
  ∃ handle, result.1 !! "c" = Some handle ∧ 2 ≤ handle ∧
            is_Some (controls result.2 !! handle).
Proof.
  assert (wellBound registryAB uiAB) as Hwell.
  { unfold wellBound, handlesBelow, injective, handlesLive, registryAB, uiAB.
    simpl. split; [|split].
    - intros name handle Hname.
      apply lookup_insert_Some in Hname as [[_ <-]|[_ Hname]]; [lia|].
      apply lookup_insert_Some in Hname as [[_ <-]|[_ Hname]]; [lia|].
      by rewrite lookup_empty in Hname.
    - intros n1 n2 handle H1 H2.
      apply lookup_insert_Some in H1 as [[<- <-]|[? H1]];
        apply lookup_insert_Some in H2 as [[<- ?]|[? H2]]; try done.
      + apply lookup_insert_Some in H2 as [[<- ?]|[? H2]]; try done.
      + apply lookup_insert_Some in H1 as [[<- <-]|[? H1]]; try done.
      + apply lookup_insert_Some in H1 as [[<- <-]|[? H1]]; try done.
        apply lookup_insert_Some in H2 as [[<- ?]|[? H2]]; try done.
    - intros name handle Hname.
      apply lookup_insert_Some in Hname as [[_ <-]|[_ Hname]]; [by eexists|].
      apply lookup_insert_Some in Hname as [[_ <-]|[_ Hname]]; [by eexists|].
      by rewrite lookup_empty in Hname. }
  split; [exact Hwell|]. intros result. subst result.
  assert ("b" ∈ declaredNames uniformsBC) as Hb
    by (apply (bool_decide_unpack _); vm_compute; exact I).
  assert ("c" ∈ declaredNames uniformsBC) as Hc
    by (apply (bool_decide_unpack _); vm_compute; exact I).
  assert ("a" ∉ declaredNames uniformsBC) as Ha
    by (apply (bool_decide_unpack _); vm_compute; exact I).
  destruct (reconcile_bindings uniformsBC registryAB uiAB "b" Hwell)
    as (Hkept & _ & _).
  destruct (reconcile_bindings uniformsBC registryAB uiAB "a" Hwell)
    as (_ & Hremoved & _).
  destruct (reconcile_bindings uniformsBC registryAB uiAB "c" Hwell)
    as (_ & _ & Hcreated).
  destruct (Hkept 1 Hb eq_refl) as (Hkb & _ & Hvb).
  destruct (Hremoved Ha) as (Hra & Hda).
  destruct (Hcreated Hc eq_refl) as (handle & Hcc & Hlive & Hfresh & _).
  split; [reflexivity|]. split; [exact Hkb|].
  split; [rewrite Hvb; reflexivity|].
  split; [reflexivity|]. split; [exact Hra|].
  split; [exact (Hda 0 eq_refl)|]. split; [reflexivity|].
  exists handle. auto.
Defined.

(** *** The controller *)

Lemma run_snoc events e : run (events ++ [e]) = step (run events) e.
Proof. unfold run. by rewrite foldl_app. Qed.







(** The registry of every reachable state is consistent with the UI. *)
Lemma step_wellBound s e :
  wellBound (uniformBindingRegistry s) (uiLayer s) →
  wellBound (uniformBindingRegistry (step s e)) (uiLayer (step s e)).
Proof.
  intros Hwell. destruct e; simpl; try done.
  - unfold edit. by destruct (hotReload (flags s)).
  - unfold respond. case_bool_decide; [|done].
    destruct result; simpl; [|done]. by apply reconcile_wellBound.
Qed.

Lemma reachable_wellBound events :
  wellBound (uniformBindingRegistry (run events)) (uiLayer (run events)).
Proof.
  induction events as [|e events IH] using rev_ind.
  - split; [|split]; intros ? **; simpl in *;
      match goal with H : ∅ !! _ = Some _ |- _ => by rewrite lookup_empty in H end.
  - rewrite run_snoc. by apply step_wellBound.
Qed.

(** A failure response changes the mode and the stored diagnostic only;
    no step looks at either. *)
Lemma failure_core s R diagnostic :
  core (step s (Response R (Failure diagnostic))) = core s.
Proof. simpl. unfold respond. by case_bool_decide. Qed.

Lemma step_core s1 s2 e :
  core s1 = core s2 → core (step s1 e) = core (step s2 e).
Proof.
  destruct s1, s2. unfold core. simpl. intros [= -> -> -> -> -> -> -> -> ->].
  destruct e; simpl; try done.
  - unfold edit. simpl. by destruct (hotReload _).
  - unfold respond. simpl. case_bool_decide; [|done]. by destruct result.
Qed.

Lemma run_without_failures events s1 s2 :
  core s1 = core s2 →
  core (foldl step s1 events) =
  core (foldl step s2 (filter (λ e, isFailureResponse e = false) events)).
Proof.
  revert s1 s2. induction events as [|e events IH]; intros s1 s2 Hcore; [done|].
  rewrite filter_cons. simpl. case_decide as Hfail.
  - simpl. apply IH. by apply step_core.
  - apply IH. destruct e; try done. destruct result; try done.
    by rewrite failure_core.
Qed.

(** The request counter never goes down, and every submission raises it
    by one. *)
Lemma step_issued_monotone s e : (issued s ≤ issued (step s e))%N.
Proof.
  destruct e; simpl; try lia.
  - unfold edit. destruct (hotReload (flags s)); simpl; lia.
  - unfold respond. case_bool_decide; [|lia]. destruct result; simpl; lia.
Qed.

(** What a success for the latest revision writes. *)
Lemma success_reconciles s R entryPoints uniforms :
  pending s = Some R →
  let s' := step s (Response R (Success entryPoints uniforms)) in
  entryPointRegistry s' = entryPoints ∧
  uniformBindingRegistry s' =
    (reconcile uniforms (uniformBindingRegistry s) (uiLayer s)).1 ∧
  storedDiagnostic s' = noError.
Proof.
  intros Hlatest. simpl. unfold respond. by rewrite bool_decide_eq_true_2.
Qed.



(** C2: after any sequence of events, processing a failure response,
    for whatever revision, leaves the entry point registry, the uniform
    binding registry (and the controls of the UI layer) and the texture
    slot registry as they were; and the registries after a sequence of
    events are those of the same sequence with the failure responses
    left out, so they derive from successful compiles only. On the atoms,
    storing the failure as the parse error leaves the loaded textures,
    the entry points and the slider map as they were. *)
Theorem failure_never_mutates_registries
    (events : list Event) (R : N) (diagnostic : ParseError) (st : Store) :
  (entryPointRegistry (step (run events) (Response R (Failure diagnostic)))
     = entryPointRegistry (run events) ∧
   uniformBindingRegistry (step (run events) (Response R (Failure diagnostic)))
     = uniformBindingRegistry (run events) ∧
   uiLayer (step (run events) (Response R (Failure diagnostic)))
     = uiLayer (run events) ∧
   textureSlotRegistry (step (run events) (Response R (Failure diagnostic)))
     = textureSlotRegistry (run events)) ∧
  core (run events) =
    core (run (filter (λ e, isFailureResponse e = false) events)) ∧
  (loadedTexturesAtom (setParseError diagnostic st) = loadedTexturesAtom st ∧
   entryPointsAtom (setParseError diagnostic st) = entryPointsAtom st ∧
   sliderRefMapAtom (setParseError diagnostic st) = sliderRefMapAtom st).
Proof.
  split; [|split].
  - simpl. unfold respond. by case_bool_decide.
  - unfold run. by apply run_without_failures.
  - done.
Qed.

End ControllerFacts.

(** ** More about the marker mapping and the atoms *)

Module MarkerFacts.
Import Atoms Editor Text EditorFacts.

Lemma firstNonWhitespaceIndex_blank str :
  firstNonWhitespaceIndex str = -1 ↔ blank str.
Proof.
  induction str as [|c rest IH]; simpl; [done|].
  destruct (isSpaceOrTab c).
  - destruct (Z.eqb_spec (firstNonWhitespaceIndex rest) (-1)) as [Heq|Hne].
    + split; [intros _; split; [done|by apply IH] | done].
    + pose proof (firstNonWhitespaceIndex_bounds rest).
      split; [lia|]. intros [_ Hblank]. apply IH in Hblank. lia.
  - split; [lia|]. intros [Hfalse _]. discriminate.
Qed.

Lemma columns_of_line model line content :
  getLineContent model line = Some content →
  getLineFirstNonWhitespaceColumn model line
    = Some (if firstNonWhitespaceIndex content =? -1 then 0
            else firstNonWhitespaceIndex content + 1) ∧
  getLineMaxColumn model line = Some (Z.of_nat (String.length content) + 1).
Proof.
  intros Hcontent. unfold getLineFirstNonWhitespaceColumn, getLineMaxColumn.
  by rewrite Hcontent.
Qed.

Lemma first_column_before_last model line firstColumn lastColumn :
  getLineFirstNonWhitespaceColumn model line = Some firstColumn →
  getLineMaxColumn model line = Some lastColumn →
  0 ≤ firstColumn < lastColumn.
Proof.
  intros Hfirst Hlast.
  destruct (getLineContent model line) as [content|] eqn:Hcontent.
  - destruct (columns_of_line _ _ _ Hcontent) as [Hf Hl].
    rewrite Hf in Hfirst. rewrite Hl in Hlast.
    injection Hfirst as <-. injection Hlast as <-.
    pose proof (firstNonWhitespaceIndex_bounds content).
    destruct (Z.eqb_spec (firstNonWhitespaceIndex content) (-1)); lia.
  - unfold getLineMaxColumn in Hlast. rewrite Hcontent in Hlast. discriminate.
Qed.

(** X1: every marker the effect sets lies inside the document and is not
    reversed: its lines are within [1 .. getLineCount], the start line is
    not after the end line, the end column is the maximum column of the
    end line, and the start column is at least 0 and at most the end
    column. *)
Theorem marker_inside_document (model : TextModel) (parseError : ParseError) :
  ∃ markers,
    mapToMarkers model parseError = Some markers ∧
    Forall (λ marker,
      1 ≤ startLineNumber marker ∧
      startLineNumber marker ≤ endLineNumber marker ∧
      endLineNumber marker ≤ getLineCount model ∧
      getLineMaxColumn model (endLineNumber marker) = Some (endColumn marker) ∧
      0 ≤ startColumn marker ≤ endColumn marker) markers.
Proof.
  pose proof (getLineCount_pos model) as Hpos.
  destruct (success parseError) eqn:Hok.
  - exists []. split; [by apply mapToMarkers_success | constructor].
  - destruct (decide (inDocumentRange model (row (position parseError))))
      as [Hin|Hout].
    + rewrite mapToMarkers_reported_in_range by done.
      assert (1 ≤ correctedRow model parseError ≤ getLineCount model) as Hrow.
      { destruct Hin as [Hlo Hhi]. unfold correctedRow. case_bool_decide; lia. }
      destruct (lineMarker_is_Some model parseError _ Hrow)
        as (fc & lc & Hfc & Hlc & Hmk).
      rewrite Hmk. simpl. eexists. split; [done|].
      constructor; [|constructor]. simpl.
      pose proof (first_column_before_last _ _ _ _ Hfc Hlc).
      repeat split; try done; lia.
    + rewrite mapToMarkers_reported_out_of_range by done.
      destruct (wholeDocumentMarker_is_Some model parseError)
        as (lc & Hlc & Hmk).
      rewrite Hmk. simpl. eexists. split; [done|].
      constructor; [|constructor]. simpl.
      assert (1 ≤ lc) as Hlc1.
      { unfold getLineMaxColumn in Hlc.
        destruct (getLineContent model (getLineCount model)); simpl in Hlc;
          [|discriminate].
        injection Hlc as <-. lia. }
      repeat split; try done; lia.
Qed.

(** X2: a failure reported on the last line of the document, and every
    failure in a one-line document, gets the whole-document marker: from
    line 1, column 1 to the end of the last line. *)
Theorem last_line_gets_whole_document_marker
    (model : TextModel) (parseError : ParseError) :
  success parseError = false →
  row (position parseError) = getLineCount model ∨ getLineCount model = 1 →
  ∃ lastColumn,
    getLineMaxColumn model (getLineCount model) = Some lastColumn ∧
    mapToMarkers model parseError =
      Some [ {| startLineNumber := 1; startColumn := 1;
                endLineNumber := getLineCount model;
                endColumn := lastColumn;
                message := summary parseError;
                severity := Error |} ].
Proof.
  intros Hfail Hcase.
  destruct (wholeDocumentMarker_is_Some model parseError) as (lc & Hlc & Hmk).
  exists lc. split; [done|].
  rewrite mapToMarkers_reported_out_of_range; [by rewrite Hmk | done |].
  unfold inDocumentRange. lia.
Qed.

Lemma last_line_gets_whole_document_marker_witness :
  success (failure "unexpected token" 1 4) = false ∧
  getLineCount oneLine = 1 ∧
  mapToMarkers oneLine (failure "unexpected token" 1 4) =
    Some [ {| startLineNumber := 1; startColumn := 1;
              endLineNumber := 1; endColumn := 10;
              message := "unexpected token"; severity := Error |} ].
Proof.
  do 2 (split; [reflexivity|]).
  destruct (last_line_gets_whole_document_marker oneLine
              (failure "unexpected token" 1 4)) as (lc & Hlc & Hmk).
  - reflexivity.
  - right. reflexivity.
  - vm_compute in Hlc. rewrite Hmk. injection Hlc as <-. reflexivity.
Defined.

(** X3: the column of a diagnostic matters only through whether it is the
    end of the reported line: two failures with the same row and summary
    whose columns are both at the line end, or both not, get the same
    markers. *)
Theorem column_matters_only_at_line_end
    (model : TextModel) (first second : ParseError) :
  success first = false → success second = false →
  row (position first) = row (position second) →
  summary first = summary second →
  (getLineMaxColumn model (row (position first)) = Some (col (position first)) ↔
   getLineMaxColumn model (row (position second)) = Some (col (position second))) →
  mapToMarkers model first = mapToMarkers model second.
Proof.
  intros Hf1 Hf2 Hrow Hsum Hcol.
  assert (correctedRow model first = correctedRow model second) as Hcorr.
  { unfold correctedRow. rewrite <- Hrow.
    rewrite <- Hrow in Hcol.
    destruct (decide (getLineMaxColumn model (row (position first))
                      = Some (col (position first)))) as [Heq|Hne].
    - rewrite !bool_decide_eq_true_2; [done| by apply Hcol | done].
    - rewrite !bool_decide_eq_false_2; [done| by rewrite <- Hcol | done]. }
  destruct (decide (inDocumentRange model (row (position first)))) as [Hin|Hout].
  - rewrite !mapToMarkers_reported_in_range; try done; [|by rewrite <- Hrow].
    rewrite Hcorr. unfold lineMarker. by rewrite Hsum.
  - rewrite !mapToMarkers_reported_out_of_range; try done; [|by rewrite <- Hrow].
    unfold wholeDocumentMarker. by rewrite Hsum.
Qed.

Lemma column_matters_only_at_line_end_witness :
  mapToMarkers tenLines (failure "unknown identifier" 5 3)
    = mapToMarkers tenLines (failure "unknown identifier" 5 6).
Proof.
  apply (column_matters_only_at_line_end tenLines
           (failure "unknown identifier" 5 3) (failure "unknown identifier" 5 6));
    try reflexivity.
  vm_compute. split; discriminate.
Defined.

(** X4: when the marked line is blank (empty, or spaces and tabs only) the
    one-line marker starts at column 0, and only then; otherwise it
    starts at a column from 1 on. *)
Theorem blank_line_marker_starts_at_column_0
    (model : TextModel) (parseError : ParseError) (content : string) :
  success parseError = false →
  inDocumentRange model (row (position parseError)) →
  getLineContent model (correctedRow model parseError) = Some content →
  ∃ marker,
    mapToMarkers model parseError = Some [marker] ∧
    startLineNumber marker = correctedRow model parseError ∧
    (startColumn marker = 0 ↔ blank content) ∧
    (¬ blank content → 1 ≤ startColumn marker).
Proof.
  intros Hfail Hin Hcontent.
  rewrite mapToMarkers_reported_in_range by done.
  destruct (columns_of_line _ _ _ Hcontent) as [Hfc Hlc].
  unfold lineMarker. rewrite Hfc, Hlc. simpl. eexists. split; [done|]. simpl.
  split; [done|].
  pose proof (firstNonWhitespaceIndex_bounds content) as Hb.
  pose proof (firstNonWhitespaceIndex_blank content) as Hblank.
  destruct (Z.eqb_spec (firstNonWhitespaceIndex content) (-1)) as [Heq|Hne].
  - split; [split; [intros _; by apply Hblank | done]|].
    intros Hnot. destruct Hnot. by apply Hblank.
  - split; [|lia]. split; [lia|]. intros Hbl. apply Hblank in Hbl. lia.
Qed.

Lemma blank_line_marker_starts_at_column_0_witness :
  ∃ marker,
    mapToMarkers blankSecondLine (failure "expected statement" 1 9)
      = Some [marker] ∧
    startLineNumber marker = 2 ∧ startColumn marker = 0 ∧ endColumn marker = 4.
Proof.
  destruct (blank_line_marker_starts_at_column_0 blankSecondLine
              (failure "expected statement" 1 9) "   ")
    as (marker & Hmk & Hline & Hblank & _).
  - reflexivity.
  - vm_compute. split; [discriminate | reflexivity].
  - reflexivity.
  - exists marker. split; [exact Hmk|]. split; [exact Hline|].
    split.
    + apply Hblank. simpl. auto.
    + vm_compute in Hmk. injection Hmk as <-. reflexivity.
Defined.

(** X5: the markers depend on the document only through its line count,
    the reported line and the line after it: two documents that agree on
    these get the same markers for a failure reported inside the range. *)
Theorem markers_depend_on_two_lines
    (model other : TextModel) (parseError : ParseError) :
  inDocumentRange model (row (position parseError)) →
  getLineCount model = getLineCount other →
  getLineContent model (row (position parseError))
    = getLineContent other (row (position parseError)) →
  getLineContent model (row (position parseError) + 1)
    = getLineContent other (row (position parseError) + 1) →
  mapToMarkers model parseError = mapToMarkers other parseError.
Proof.
  intros Hin Hcount Hrow Hnext.
  destruct (success parseError) eqn:Hok.
  { by rewrite !mapToMarkers_success. }
  assert (inDocumentRange other (row (position parseError))) as Hin'.
  { unfold inDocumentRange in *. by rewrite <- Hcount. }
  rewrite !mapToMarkers_reported_in_range by done.
  assert (correctedRow model parseError = correctedRow other parseError) as Hc.
  { unfold correctedRow, getLineMaxColumn. by rewrite Hrow. }
  rewrite <- Hc. unfold lineMarker,
    getLineFirstNonWhitespaceColumn, getLineMaxColumn.
  assert (getLineContent model (correctedRow model parseError)
          = getLineContent other (correctedRow model parseError)) as Hsame.
  { unfold correctedRow. case_bool_decide; done. }
  by rewrite Hsame.
Qed.

Lemma markers_depend_on_two_lines_witness :
  mapToMarkers tenLines (failure "unknown identifier" 5 3)
    = mapToMarkers
        {| firstLine := "// edited";
           moreLines := moreLines tenLines |}
        (failure "unknown identifier" 5 3).
Proof.
  apply markers_depend_on_two_lines; try reflexivity.
  vm_compute. split; [discriminate | reflexivity].
Defined.

End MarkerFacts.

(** ** Facts about the hover provider *)

Module HoverFacts.
Import Hover.

Lemma space_char c : Editor.charCode c = 32%nat → String c EmptyString = " ".
Proof.
  unfold Editor.charCode. intros Hcode.
  rewrite <- (Ascii.ascii_nat_embedding c), Hcode. reflexivity.
Qed.

Lemma split_nonempty str : ∃ field fields, split str = field :: fields.
Proof.
  induction str as [|c rest (field & fields & IH)]; simpl; [eauto|].
  case_bool_decide; [eauto|]. rewrite IH. eauto.
Qed.

Lemma split_spaceless field : spaceless field → split field = [field].
Proof.
  induction field as [|c rest IH]; simpl; [done|].
  intros [Hc Hrest]. rewrite bool_decide_eq_false_2 by done.
  by rewrite IH.
Qed.

Lemma split_field field rest :
  spaceless field → split (field +:+ " " +:+ rest) = field :: split rest.
Proof.
  induction field as [|c field IH]; simpl; [done|].
  intros [Hc Hfield]. rewrite bool_decide_eq_false_2 by done.
  by rewrite IH.
Qed.

(** The first field is what precedes the first space. *)
Lemma split_first str field :
  split str !! 0%nat = Some field →
  spaceless field ∧ (str = field ∨ ∃ rest, str = field +:+ " " +:+ rest).
Proof.
  revert field. induction str as [|c rest IH]; simpl; intros field.
  - intros [= <-]. split; [done|by left].
  - case_bool_decide as Hspace; simpl.
    + intros [= <-]. split; [done|]. right. exists rest. simpl.
      apply space_char in Hspace. by injection Hspace as ->.
    + destruct (split_nonempty rest) as (head & fields & Hsplit).
      rewrite Hsplit in IH |- *. simpl. intros [= <-].
      destruct (IH head eq_refl) as [Hhead [->|[rest' ->]]].
      * split; [done|]. by left.
      * split; [done|]. right. by exists rest'.
Qed.

Lemma split_second_missing str field :
  split str !! 0%nat = Some field → split str !! 1%nat = None → str = field.
Proof.
  intros Hfirst Hsecond.
  destruct (split_first _ _ Hfirst) as [Hfield [->|[rest ->]]]; [done|].
  rewrite split_field in Hsecond by done.
  destruct (split_nonempty rest) as (head & fields & Hsplit).
  rewrite Hsplit in Hsecond. discriminate.
Qed.

Lemma include_spaceless : spaceless "#include".
Proof. simpl. repeat split; discriminate. Qed.

Lemma substring_prefix (a b : string) :
  String.substring 0 (String.length a) (a +:+ b) = a.
Proof.
  induction a as [|c a IH]; simpl; [by destruct b|]. by rewrite IH.
Qed.

Lemma length_append (a b : string) :
  String.length (a +:+ b) = (String.length a + String.length b)%nat.
Proof. induction a as [|c a IH]; simpl; [done|]. by rewrite IH. Qed.

(** [slice(1, -1)] removes the first and the last character. *)
Lemma slice_delimited o (name : string) c :
  slice 1 (-1) (String o (name +:+ String c EmptyString)) = name.
Proof.
  unfold slice. simpl String.length. rewrite length_append. simpl String.length.
  replace (1 <? 0) with false by done. replace (-1 <? 0) with true by done.
  set (len := Z.of_nat (S (String.length name + 1))).
  assert (len = Z.of_nat (String.length name) + 2) as Hlen by (unfold len; lia).
  replace (Z.to_nat (Z.min 1 len)) with 1%nat by lia.
  replace (Z.to_nat (Z.max (Z.max (len + -1) 0 - Z.min 1 len) 0))
    with (String.length name) by lia.
  simpl. apply substring_prefix.
Qed.

(** X7: the provider does nothing on a line that is not an include
    directive: unless the line is [#include] or starts with [#include]
    and a space, nothing is fetched and no hover is shown; a directive
    that is indented or shares its field with other text is not seen. *)
Theorem hover_only_on_include_lines (fetch : string → option Response)
    (mounted : bool) (model : Editor.TextModel) (n : Z) (content : string) :
  Editor.getLineContent model n = Some content →
  content ≠ "#include" →
  (∀ rest, content ≠ "#include " +:+ rest) →
  provideHover fetch mounted model n = ([], Returned None).
Proof.
  intros Hcontent Hbare Hprefix. unfold provideHover. rewrite Hcontent.
  case_bool_decide as Hfirst; [|done].
  destruct (split_first _ _ Hfirst) as [_ [->|[rest ->]]]; [done|].
  by destruct (Hprefix rest).
Qed.

Lemma hover_only_on_include_lines_witness :
  Editor.getLineContent includeLines 3 = Some "  #include <noise>" ∧
  provideHover serveNoise true includeLines 3 = ([], Returned None).
Proof.
  split; [reflexivity|].
  apply (hover_only_on_include_lines serveNoise true includeLines 3
           "  #include <noise>"); [reflexivity | discriminate |].
  intros rest. discriminate.
Defined.

(** X8: with the editor mounted and a gateway that answers every request,
    the provider throws on exactly one kind of line: the bare directive
    [#include] with nothing after it (the second field is missing). *)
Theorem hover_throws_on_bare_directive (fetch : string → option Response)
    (model : Editor.TextModel) (n : Z) (content : string) :
  Editor.getLineContent model n = Some content →
  (∀ url, is_Some (fetch url)) →
  (provideHover fetch true model n).2 = Thrown ↔ content = "#include".
Proof.
  intros Hcontent Hfetch. unfold provideHover. rewrite Hcontent. split.
  - case_bool_decide as Hfirst; [|done].
    destruct (split content !! 1%nat) as [field|] eqn:Hsecond.
    + set (name := if bool_decide (charAt 0 field = "<")
                   then "std/" +:+ slice 1 (-1) field else slice 1 (-1) field).
      destruct (Hfetch (includeUrl name)) as [resp Hresp]. rewrite Hresp.
      case_bool_decide; [done|].
      assert (is_Some (Editor.getLineMaxColumn model n)) as [mc Hmc].
      { unfold Editor.getLineMaxColumn. rewrite Hcontent. simpl. eauto. }
      by rewrite Hmc.
    + intros _. by apply split_second_missing.
  - intros ->. reflexivity.
Qed.

Lemma hover_throws_on_bare_directive_witness :
  Editor.getLineContent includeLines 2 = Some "#include" ∧
  (provideHover serveNoise true includeLines 2).2 = Thrown.
Proof.
  split; [reflexivity|].
  apply (hover_throws_on_bare_directive serveNoise includeLines 2 "#include");
    [reflexivity | | reflexivity].
  intros url. unfold serveNoise. case_bool_decide; eauto.
Defined.

Lemma append_empty (str : string) : str +:+ EmptyString = str.
Proof.
  induction str as [|c str IH]; [done|].
  change (String c (str +:+ EmptyString) = String c str). by rewrite IH.
Qed.

Lemma split_directive (field : string) (trailing : option string) :
  spaceless field →
  split ("#include " +:+ field +:+
         match trailing with
         | Some more => " " +:+ more
         | None => EmptyString
         end)
  = "#include" :: field ::
    match trailing with
    | Some more => split more
    | None => []
    end.
Proof.
  intros Hfield.
  change ("#include " +:+ ?x) with ("#include" +:+ " " +:+ x).
  rewrite (split_field "#include") by apply include_spaceless.
  f_equal. destruct trailing as [more|].
  - by rewrite split_field.
  - rewrite append_empty. by apply split_spaceless.
Qed.

(** X9: for a directive whose second field is a name between two
    delimiter characters, exactly one request is made, for the name with
    the delimiters removed, under [std/] when the opening delimiter is
    [<] and as it is otherwise; anything after the field is ignored. *)
Theorem hover_requests_include_url (fetch : string → option Response)
    (mounted : bool) (model : Editor.TextModel) (n : Z)
    (o c : Ascii.ascii) (name : string) (trailing : option string) :
  spaceless (String o (name +:+ String c EmptyString)) →
  Editor.getLineContent model n =
    Some ("#include " +:+ String o (name +:+ String c EmptyString) +:+
          match trailing with
          | Some more => " " +:+ more
          | None => EmptyString
          end) →
  (provideHover fetch mounted model n).1 =
    [ includeUrl (if bool_decide (String o EmptyString = "<")
                  then "std/" +:+ name else name) ].
Proof.
  intros Hfield Hcontent. unfold provideHover. rewrite Hcontent.
  rewrite split_directive by done.
  rewrite bool_decide_eq_true_2 by done.
  change ((?a :: ?b :: ?l) !! 1%nat) with (Some b). cbv beta iota.
  rewrite slice_delimited.
  replace (charAt 0 (String o (name +:+ String c EmptyString))) with (String o EmptyString)
    by (by destruct name).
  destruct (fetch _); [|done].
  case_bool_decide; [done|]. destruct mounted; [|done].
  by destruct (Editor.getLineMaxColumn model n).
Qed.

Lemma hover_requests_include_url_witness :
  (provideHover serveNoise true includeLines 1).1 =
    [ "https://compute-toys.github.io/include/std/noise.wgsl" ].
Proof.
  apply (hover_requests_include_url serveNoise true includeLines 1
           (Ascii.ascii_of_nat 60) (Ascii.ascii_of_nat 62) "noise" None).
  - simpl. repeat split; discriminate.
  - reflexivity.
Defined.

(** X10: a hover is shown only for a request answered with status 200:
    whenever the provider returns a hover, it made one request, the
    answer had status 200, the editor was mounted, the range is the whole
    line, and the contents are the source heading and the fetched text in
    a wgsl code fence. *)
Theorem hover_shown_only_after_200 (fetch : string → option Response)
    (mounted : bool) (model : Editor.TextModel) (n : Z)
    (requests : list string) (hover : HoverResult) :
  provideHover fetch mounted model n = (requests, Returned (Some hover)) →
  ∃ url resp maxColumn,
    requests = [url] ∧ fetch url = Some resp ∧ status resp = 200 ∧
    mounted = true ∧
    Editor.getLineMaxColumn model n = Some maxColumn ∧
    hover = {| range := {| startLineNumber := n; startColumn := 1;
                           endLineNumber := n; endColumn := maxColumn |};
               contents := ["**SOURCE**"; fenced (text resp)] |}.
Proof.
  unfold provideHover.
  destruct (Editor.getLineContent model n) as [content|]; [|done].
  case_bool_decide; [|done].
  destruct (split content !! 1%nat) as [field|]; [|done].
  set (name := if bool_decide (charAt 0 field = "<")
               then "std/" +:+ slice 1 (-1) field else slice 1 (-1) field).
  destruct (fetch (includeUrl name)) as [resp|] eqn:Hresp; [|done].
  case_bool_decide as Hstatus; [done|].
  destruct mounted; [|done].
  destruct (Editor.getLineMaxColumn model n) as [maxColumn|] eqn:Hmax; [|done].
  intros [= <- <-]. exists (includeUrl name), resp, maxColumn.
  repeat split; try done.
Qed.

Lemma hover_shown_only_after_200_witness :
  ∃ url resp,
    serveNoise url = Some resp ∧ status resp = 200 ∧
    (provideHover serveNoise true includeLines 1).1 = [url].
Proof.
  destruct (hover_shown_only_after_200 serveNoise true includeLines 1
              [ "https://compute-toys.github.io/include/std/noise.wgsl" ]
              {| range := {| startLineNumber := 1; startColumn := 1;
                             endLineNumber := 1; endColumn := 17 |};
                 contents := ["**SOURCE**"; fenced "fn noise() {}"] |})
    as (url & resp & mc & Hreq & Hresp & Hstatus & _).
  - reflexivity.
  - exists url, resp. split; [done|]. split; [done|].
    rewrite <- Hreq. reflexivity.
Defined.

End HoverFacts.

(** ** Facts about mounting *)

Module MountFacts.
Import Mount.

Lemma editorWillMount_registered defineMonacoTheme monaco :
  Exists (λ id, id = "wgsl") (languages monaco) →
  editorWillMount defineMonacoTheme monaco = monaco.
Proof. intros Hreg. unfold editorWillMount. by rewrite bool_decide_eq_true_2. Qed.

Lemma editorWillMount_registers defineMonacoTheme monaco :
  keepsLanguages defineMonacoTheme →
  Exists (λ id, id = "wgsl")
    (languages (editorWillMount defineMonacoTheme monaco)).
Proof.
  intros Hkeeps. unfold editorWillMount. case_bool_decide as Hreg; [done|].
  destruct (Hkeeps (registerHoverProvider "wgsl"
                      (setLanguageConfiguration "wgsl"
                         (setMonarchTokensProvider "wgsl"
                            (register "wgsl" monaco)))) "global") as [-> _].
  simpl. apply Exists_app. right. by constructor.
Qed.

(** X11: mounting is idempotent: when the theme definition leaves the
    language registry alone, any number of further mounts leaves Monaco
    as the first mount left it, with wgsl registered. *)
Theorem editorWillMount_idempotent
    (defineMonacoTheme : Monaco → string → Monaco) (monaco : Monaco) (k : nat) :
  keepsLanguages defineMonacoTheme →
  Nat.iter (S k) (editorWillMount defineMonacoTheme) monaco
    = editorWillMount defineMonacoTheme monaco ∧
  "wgsl" ∈ languages (editorWillMount defineMonacoTheme monaco).
Proof.
  intros Hkeeps. split.
  - induction k as [|k IH]; [done|].
    change (Nat.iter (S (S k)) ?f ?x) with (f (Nat.iter (S k) f x)).
    rewrite IH. apply editorWillMount_registered.
    by apply editorWillMount_registers.
  - pose proof (editorWillMount_registers _ monaco Hkeeps) as Hreg.
    apply Exists_exists in Hreg as (id & Hin & ->). done.
Qed.

Lemma editorWillMount_idempotent_witness :
  Nat.iter 3 (editorWillMount defineTheme) freshMonaco
    = editorWillMount defineTheme freshMonaco.
Proof.
  apply (editorWillMount_idempotent defineTheme freshMonaco 2).
  intros monaco name. split; reflexivity.
Defined.

(** X12: however many editors mount, at most one hover provider is
    registered, and none when a language with id wgsl was registered
    beforehand (even if it had no hover provider): after one or more
    mounts the hover providers are the old ones, followed by one for wgsl
    exactly when wgsl was not yet a language. *)
Theorem editorWillMount_one_hover_provider
    (defineMonacoTheme : Monaco → string → Monaco) (monaco : Monaco) (k : nat) :
  keepsLanguages defineMonacoTheme →
  hoverProviders (Nat.iter (S k) (editorWillMount defineMonacoTheme) monaco) =
    if bool_decide (Exists (λ id, id = "wgsl") (languages monaco))
    then hoverProviders monaco
    else hoverProviders monaco ++ ["wgsl"].
Proof.
  intros Hkeeps.
  assert (Nat.iter (S k) (editorWillMount defineMonacoTheme) monaco
          = editorWillMount defineMonacoTheme monaco) as ->.
  { induction k as [|k IH]; [done|].
    change (Nat.iter (S (S k)) ?f ?x) with (f (Nat.iter (S k) f x)).
    rewrite IH. apply editorWillMount_registered.
    by apply editorWillMount_registers. }
  unfold editorWillMount. case_bool_decide; [done|].
  by destruct (Hkeeps (registerHoverProvider "wgsl"
                      (setLanguageConfiguration "wgsl"
                         (setMonarchTokensProvider "wgsl"
                            (register "wgsl" monaco)))) "global") as [_ ->].
Qed.

Lemma editorWillMount_one_hover_provider_witness :
  hoverProviders (Nat.iter 3 (editorWillMount defineTheme) freshMonaco)
    = ["wgsl"].
Proof.
  rewrite (editorWillMount_one_hover_provider defineTheme freshMonaco 2).
  - reflexivity.
  - intros monaco name. split; reflexivity.
Defined.

End MountFacts.

(** ** Facts about the buffer shader *)

Module ShaderFacts.
Import Shaders.

Lemma index_without_wrap (x y sx : Z) :
  uint (x + y * uint sx) mod 131072 = (x + y * sx) mod 131072.
Proof.
  unfold uint.
  rewrite (Z.mod_eq sx (2 ^ 32)) by lia.
  set (q := sx / 2 ^ 32).
  rewrite (Z.mod_eq (x + y * (sx - 2 ^ 32 * q)) (2 ^ 32)) by lia.
  set (r := (x + y * (sx - 2 ^ 32 * q)) / 2 ^ 32).
  replace (x + y * (sx - 2 ^ 32 * q) - 2 ^ 32 * r)
    with (x + y * sx + (- (y * q * 32768) - 32768 * r) * 131072) by lia.
  apply Z_mod_plus_full.
Qed.

(** X13: the helper never reads outside a buffer of 131072 elements,
    whatever the thread id and the screen size, and the 32-bit wrap of the
    index does not show: the element read is the one at
    (x + y * screenSize.x) mod 131072, and it fills the three colour
    channels. *)
Theorem imageMain_reads_inside_buffer {T : Type} (one : T) (buf : list T)
    (dispatchThreadID screenSize : Z * Z) :
  Z.of_nat (length buf) = 131072 →
  ∃ rand,
    buf !! Z.to_nat ((dispatchThreadID.1 + dispatchThreadID.2 * screenSize.1)
                     mod 131072) = Some rand ∧
    imageMain one buf dispatchThreadID screenSize = Some (rand, rand, rand, one).
Proof.
  intros Hlen. unfold imageMain. rewrite index_without_wrap.
  set (i := (dispatchThreadID.1 + dispatchThreadID.2 * screenSize.1) mod 131072).
  assert (0 ≤ i < 131072) as Hi by (apply Z.mod_pos_bound; lia).
  destruct (lookup_lt_is_Some_2 buf (Z.to_nat i)) as [rand Hrand].
  { lia. }
  exists rand. by rewrite Hrand.
Qed.

Lemma imageMain_reads_inside_buffer_witness :
  imageMain 1 (replicate (Z.to_nat 131072) 7) (5, 70000) (65536, 10) = Some (7, 7, 7, 1).
Proof.
  destruct (imageMain_reads_inside_buffer 1 (replicate (Z.to_nat 131072) 7)
              (5, 70000) (65536, 10)) as (rand & Hrand & Himage).
  - rewrite length_replicate. apply Z2Nat.id. lia.
  - rewrite Himage. apply lookup_replicate in Hrand as [-> _]. reflexivity.
Defined.

(** X14: with a buffer of 131072 elements no thread fails, also outside
    the viewport where the colour is computed all the same; a thread
    changes no pixel but its own, and none at all when it is outside the
    viewport. *)
Theorem imageMainKernel_writes_own_pixel {T : Type} (one : T) (buf : list T)
    (width height : Z) (dispatchThreadID : Z * Z * Z)
    (screen : gmap (Z * Z) (T * T * T * T)) :
  Z.of_nat (length buf) = 131072 →
  ∃ screen',
    imageMainKernel one buf width height dispatchThreadID screen = Some screen' ∧
    (∀ pixel, pixel ≠ (dispatchThreadID.1.1, dispatchThreadID.1.2) →
              screen' !! pixel = screen !! pixel) ∧
    (width ≤ dispatchThreadID.1.1 ∨ height ≤ dispatchThreadID.1.2 →
     screen' = screen).
Proof.
  intros Hlen. unfold imageMainKernel.
  destruct (imageMain_reads_inside_buffer one buf
              (dispatchThreadID.1.1, dispatchThreadID.1.2)
              (int width, int height) Hlen) as (rand & _ & ->).
  simpl. destruct (decide (width ≤ dispatchThreadID.1.1)) as [Hx|Hx].
  { rewrite (bool_decide_eq_true_2 _ Hx). simpl. eauto. }
  rewrite (bool_decide_eq_false_2 _ Hx). simpl.
  destruct (decide (height ≤ dispatchThreadID.1.2)) as [Hy|Hy].
  { rewrite (bool_decide_eq_true_2 _ Hy). eauto. }
  rewrite (bool_decide_eq_false_2 _ Hy).
  eexists. split; [done|]. split.
  - intros pixel Hne. by rewrite lookup_insert_ne.
  - intros [?|?]; lia.
Qed.

Lemma imageMainKernel_writes_own_pixel_witness :
  imageMainKernel 1 (replicate (Z.to_nat 131072) 7) 640 480 (700, 20, 0) ∅ = Some ∅.
Proof.
  destruct (imageMainKernel_writes_own_pixel 1 (replicate (Z.to_nat 131072) 7)
              640 480 (700, 20, 0) ∅) as (screen' & Hrun & _ & Houtside).
  - rewrite length_replicate. apply Z2Nat.id. lia.
  - rewrite Hrun. f_equal. apply Houtside. left. simpl. lia.
Defined.

End ShaderFacts.

(** ** Facts about the metadata editor and the shader list *)

Module PageFacts.
Import Metadata ShaderList.

(** X15: the editing controls of the metadata editor come together and
    only for the author: the Save button, the title and description
    inputs and the visibility select are rendered exactly when a user is
    signed in and either the shader has no author profile or the
    profile's id is the user's; otherwise title and description are
    plain text and there is neither select nor button. *)
Theorem editing_controls_only_for_author (user : option User)
    (authorProfile : option AuthorProfile) (title description : string)
    (visibility : Visibility) :
  (saveButton (MetadataEditor user authorProfile title description visibility)
     = true ↔
   ∃ u, user = Some u ∧
        (authorProfile = None ∨
         ∃ profile, authorProfile = Some profile ∧ userId u = id profile)) ∧
  (if saveButton (MetadataEditor user authorProfile title description visibility)
   then
     titleItem (MetadataEditor user authorProfile title description visibility)
       = TextField title ∧
     visibilityItem (MetadataEditor user authorProfile title description visibility)
       = Some visibility ∧
     descriptionItem (MetadataEditor user authorProfile title description visibility)
       = TextField description
   else
     titleItem (MetadataEditor user authorProfile title description visibility)
       = Typography title ∧
     visibilityItem (MetadataEditor user authorProfile title description visibility)
       = None ∧
     descriptionItem (MetadataEditor user authorProfile title description visibility)
       = Typography description).
Proof.
  split.
  - simpl. unfold userIsAuthor.
    destruct user as [u|]; [|split; [done|by intros (? & ? & _)]].
    destruct authorProfile as [profile|].
    + rewrite bool_decide_eq_true. split.
      * intros Hid. exists u. split; [done|]. right. by exists profile.
      * intros (u' & [= <-] & [?|(profile' & [= <-] & Hid)]); done.
    + split; [|done]. intros _. exists u. auto.
  - simpl. by destruct (userIsAuthor user authorProfile).
Qed.

Lemma editing_controls_only_for_author_witness :
  saveButton (MetadataEditor (Some alice) (Some bobProfile)
                "Caustics" "A pool" public) = false ∧
  saveButton (MetadataEditor (Some alice) None "Caustics" "A pool" public)
    = true.
Proof.
  split.
  - destruct (editing_controls_only_for_author (Some alice) (Some bobProfile)
                "Caustics" "A pool" public) as [[Hauthor _] _].
    destruct (saveButton _); [|done].
    destruct (Hauthor eq_refl) as (u & [= <-] & [?|(p & [= <-] & Hid)]);
      discriminate.
  - apply (editing_controls_only_for_author (Some alice) None
             "Caustics" "A pool" public). exists alice. auto.
Defined.



End PageFacts.
